(** * Project listing and ranking engine of the judging site

    Shallow embedding of [project_list] and its helpers from
    [accounts/views.py], over the models of [core/models.py] and
    [accounts/models.py].  A raised Python exception is [None] in the
    option-valued helpers, and an [Err] in the view. *)

From Stdlib Require Import QArith Sorting.Sorted Strings.Ascii.
From stdpp Require Import base gmap strings list pretty.

Set Warnings "-register-all".
Open Scope string_scope.

(* ------------------------------------------------------------------ *)
(** ** JSON values and Python truthiness *)

(** The values a [JSONField] holds once loaded in Python: [None], bool,
    int, str, list, dict (a dict keeps its key order). *)
Inductive json :=
| JNull
| JBool (b : bool)
| JNum (z : Z)
| JStr (s : string)
| JList (l : list json)
| JObj (kvs : list (string * json)).

(** [bool(v)] *)
Definition truthy (v : json) : bool :=
  match v with
  | JNull => false
  | JBool b => b
  | JNum z => negb (Z.eqb z 0)
  | JStr s => negb (String.eqb s "")
  | JList l => negb (Nat.eqb (length l) 0)
  | JObj kvs => negb (Nat.eqb (length kvs) 0)
  end.

(** [a or b] *)
Definition py_or (a b : json) : json := if truthy a then a else b.

(** [d.get(k)]: an absent key and a stored JSON null both give [None]. *)
Definition fc_get (fc : gmap string json) (k : string) : json :=
  default JNull (fc !! k).

(** The one-character strings of a string, as iterating over it yields. *)
Fixpoint str_chars (s : string) : list string :=
  match s with
  | EmptyString => []
  | String c s' => String c EmptyString :: str_chars s'
  end.

(** [for x in v]: lists yield their items, strings their characters,
    dicts their keys; [None], bool and int raise [TypeError]. *)
Definition py_iter (v : json) : option (list json) :=
  match v with
  | JList l => Some l
  | JStr s => Some (map JStr (str_chars s))
  | JObj kvs => Some (map (fun kv => JStr kv.1) kvs)
  | _ => None
  end.

(** [needle in haystack] for two Python strings: substring test. *)
Fixpoint str_contains (needle hay : string) : bool :=
  String.prefix needle hay ||
  match hay with
  | EmptyString => false
  | String _ hay' => str_contains needle hay'
  end.

(** [x in v] for a Python string [x]: substring for a str, element
    equality for a list, key membership for a dict; [TypeError] for
    bool, int and [None]. *)
Definition py_in_str (x : string) (v : json) : option bool :=
  match v with
  | JStr s => Some (str_contains x s)
  | JList l =>
      Some (existsb (fun e => match e with JStr s => String.eqb s x | _ => false end) l)
  | JObj kvs => Some (existsb (fun kv => String.eqb kv.1 x) kvs)
  | _ => None
  end.

(* ------------------------------------------------------------------ *)
(** ** Models *)

(** [ScoreRecord]: [raw_score] and [scaled_score] are
    [DecimalField(max_digits=6, decimal_places=2)], kept here in
    hundredths; [raw_score] is NOT NULL, [scaled_score] is nullable. *)
Record ScoreRecord := mkScoreRecord {
  raw_score : Z;
  scaled_score : option Z
}.

(** [Project]: the fields the listing reads.  [p_other_attrs] gives the
    truthiness of every other attribute of the model instance that
    [getattr] can reach (the remaining text fields, [team], related
    managers, methods, ...); [None] when the instance has no attribute of
    that name.  [score_records] is [project.score_records.all()]. *)
Record Project := mkProject {
  p_id : Z;
  title : string;
  main_category : string;
  eligible_categories : list string;
  is_beginner : bool;
  is_mobile : bool;
  is_web : bool;
  uses_ai_ml : bool;
  is_roam : bool;
  created_at : Z;
  score_records : list ScoreRecord;
  p_other_attrs : string -> option bool
}.

(** [ProjectListEntry] of the selected list for one project. *)
Record Entry := mkEntry {
  is_whitelisted : bool;
  is_blacklisted : bool;
  manual_rank : option nat
}.

(** [ProjectList], with its entries keyed by project id (the
    [entries_map] the view builds; [unique_together] makes it a map). *)
Record ProjectList := mkProjectList {
  pl_title : string;
  slug : string;
  audience : string;
  sort_field : string;
  sort_descending : bool;
  limit : option nat;
  filter_config : gmap string json;
  is_default : bool;
  pl_entries : gmap Z Entry
}.

(** [User] with its [Role] value. *)
Record User := mkUser {
  role : string;
  is_superuser : bool;
  is_staff : bool
}.

Definition ROLE_ADMIN := "admin".
Definition ROLE_HACKTJ := "hacktj".
Definition ROLE_JUDGE := "judge".

Definition ALPHABETICAL := "alphabetical".
Definition SCORE_RAW := "score_raw".
Definition SCORE_SCALED := "score_scaled".
Definition CREATED := "created".

(* ------------------------------------------------------------------ *)
(** ** [_project_matches_filter] *)

Definition PROJECT_FLAG_FIELD_MAP : list (string * string) :=
  [("beginner", "is_beginner"); ("is_beginner", "is_beginner");
   ("mobile", "is_mobile"); ("is_mobile", "is_mobile");
   ("web", "is_web"); ("is_web", "is_web");
   ("ai_ml", "uses_ai_ml"); ("uses_ai_ml", "uses_ai_ml");
   ("roam", "is_roam"); ("is_roam", "is_roam")].

Fixpoint assoc_get (k : string) (t : list (string * string)) : option string :=
  match t with
  | [] => None
  | (k', v) :: t' => if String.eqb k k' then Some v else assoc_get k t'
  end.

(** [PROJECT_FLAG_FIELD_MAP.get(flag, flag)], followed by the check that
    [getattr] makes on its name: a list or dict flag is unhashable, any
    other non-string flag is not a valid attribute name; both raise. *)
Definition flag_field (flag : json) : option string :=
  match flag with
  | JStr s => Some (default s (assoc_get s PROJECT_FLAG_FIELD_MAP))
  | _ => None
  end.

(** Truthiness of [getattr(project, name)], [None] if there is no such
    attribute.  [pk] is the id; a datetime is always true. *)
Definition project_attr (p : Project) (name : string) : option bool :=
  if String.eqb name "id" then Some (negb (Z.eqb (p_id p) 0))
  else if String.eqb name "pk" then Some (negb (Z.eqb (p_id p) 0))
  else if String.eqb name "title" then Some (negb (String.eqb (title p) ""))
  else if String.eqb name "main_category" then Some (negb (String.eqb (main_category p) ""))
  else if String.eqb name "eligible_categories" then
    Some (negb (Nat.eqb (length (eligible_categories p)) 0))
  else if String.eqb name "is_beginner" then Some (is_beginner p)
  else if String.eqb name "is_mobile" then Some (is_mobile p)
  else if String.eqb name "is_web" then Some (is_web p)
  else if String.eqb name "uses_ai_ml" then Some (uses_ai_ml p)
  else if String.eqb name "is_roam" then Some (is_roam p)
  else if String.eqb name "created_at" then Some true
  else p_other_attrs p name.

(** [bool(getattr(project, field, False))] *)
Definition getattr_truthy (p : Project) (name : string) : bool :=
  default false (project_attr p name).

(** [project.main_category not in main_categories] guard; [Some true]
    means the check passed. *)
Definition check_main (p : Project) (mc : json) : option bool :=
  if truthy mc then
    match py_in_str (main_category p) mc with
    | Some b => Some b
    | None => None
    end
  else Some true.

(** [code in project_eligible], a set of strings: an unhashable code
    (list or dict) raises, any other non-string is never in it. *)
Definition in_eligible_set (p : Project) (code : json) : option bool :=
  match code with
  | JStr c => Some (existsb (String.eqb c) (eligible_categories p))
  | JList _ | JObj _ => None
  | _ => Some false
  end.

(** [any(code in project_eligible for code in eligible_required)] *)
Fixpoint any_eligible (p : Project) (codes : list json) : option bool :=
  match codes with
  | [] => Some false
  | c :: cs =>
      match in_eligible_set p c with
      | None => None
      | Some true => Some true
      | Some false => any_eligible p cs
      end
  end.

Definition check_eligible (p : Project) (el : json) : option bool :=
  if truthy el then
    match py_iter el with
    | None => None
    | Some codes => any_eligible p codes
    end
  else Some true.

(** The [require_flags] loop. *)
Fixpoint require_loop (p : Project) (flags : list json) : option bool :=
  match flags with
  | [] => Some true
  | f :: fs =>
      match flag_field f with
      | None => None
      | Some field => if getattr_truthy p field then require_loop p fs else Some false
      end
  end.

(** The [exclude_flags] loop. *)
Fixpoint exclude_loop (p : Project) (flags : list json) : option bool :=
  match flags with
  | [] => Some true
  | f :: fs =>
      match flag_field f with
      | None => None
      | Some field => if getattr_truthy p field then Some false else exclude_loop p fs
      end
  end.

Definition iter_or_empty (v : json) : option (list json) :=
  if truthy v then py_iter v else Some [].

(** [filter_config.get("main_categories") or filter_config.get("categories")] *)
Definition main_categories_of (fc : gmap string json) : json :=
  py_or (fc_get fc "main_categories") (fc_get fc "categories").

Definition _project_matches_filter (p : Project) (fc : gmap string json) : option bool :=
  if Nat.eqb (size fc) 0 then Some true else
  match check_main p (main_categories_of fc) with
  | None => None
  | Some false => Some false
  | Some true =>
  match check_eligible p (py_or (fc_get fc "eligible_categories") (JList [])) with
  | None => None
  | Some false => Some false
  | Some true =>
  match iter_or_empty (fc_get fc "require_flags") with
  | None => None
  | Some rf =>
  match require_loop p rf with
  | None => None
  | Some false => Some false
  | Some true =>
  match iter_or_empty (fc_get fc "exclude_flags") with
  | None => None
  | Some ef => exclude_loop p ef
  end end end end end.

(* ------------------------------------------------------------------ *)
(** ** String helpers used by the descriptions and the sort keys *)

(** [str.isspace] on one character (the ASCII range). *)
Definition is_space (c : ascii) : bool :=
  let n := Ascii.nat_of_ascii c in
  (Nat.leb 9 n && Nat.leb n 13) || (Nat.leb 28 n && Nat.leb n 32).

Fixpoint lstrip_list (l : list ascii) : list ascii :=
  match l with
  | c :: l' => if is_space c then lstrip_list l' else l
  | [] => []
  end.

(** [str.strip()] *)
Definition strip (s : string) : string :=
  String.string_of_list_ascii
    (rev (lstrip_list (rev (lstrip_list (String.list_ascii_of_string s))))).

Definition is_upper (c : ascii) : bool :=
  let n := Ascii.nat_of_ascii c in Nat.leb 65 n && Nat.leb n 90.

Definition is_lower (c : ascii) : bool :=
  let n := Ascii.nat_of_ascii c in Nat.leb 97 n && Nat.leb n 122.

Definition to_lower (c : ascii) : ascii :=
  if is_upper c then Ascii.ascii_of_nat (Ascii.nat_of_ascii c + 32) else c.

Definition to_upper (c : ascii) : ascii :=
  if is_lower c then Ascii.ascii_of_nat (Ascii.nat_of_ascii c - 32) else c.

(** [str.lower()] *)
Fixpoint lower (s : string) : string :=
  match s with
  | EmptyString => EmptyString
  | String c s' => String (to_lower c) (lower s')
  end.

(** [str.title()]: a cased character is upper-cased after an uncased
    one and lower-cased after a cased one. *)
Fixpoint title_aux (prev_cased : bool) (s : string) : string :=
  match s with
  | EmptyString => EmptyString
  | String c s' =>
      if is_upper c || is_lower c then
        String (if prev_cased then to_lower c else to_upper c) (title_aux true s')
      else String c (title_aux false s')
  end.

Definition py_title (s : string) : string := title_aux false s.

(** [s.replace("_", " ")] *)
Fixpoint replace_underscore (s : string) : string :=
  match s with
  | EmptyString => EmptyString
  | String c s' =>
      String (if Ascii.eqb c "_"%char then " "%char else c) (replace_underscore s')
  end.

(* ------------------------------------------------------------------ *)
(** ** [_describe_filters] *)

(** [dict(Project.Category.choices)] *)
Definition category_labels : list (string * string) :=
  [("biomedical", "Biomedical Science"); ("sustainability", "Sustainability");
   ("finance", "Finance"); ("lifestyle", "Lifestyle");
   ("cyber", "Cyber Technology"); ("quantum", "Quantum"); ("other", "Other")].

(** [code.replace("_", " ").title()]: raises for a non-string code. *)
Definition code_label (code : json) : option string :=
  match code with
  | JStr c => Some (py_title (replace_underscore c))
  | _ => None
  end.

(** [category_labels.get(code, code.replace("_", " ").title())]: the
    default argument is evaluated first, so a non-string code raises. *)
Definition category_label (code : json) : option string :=
  match code with
  | JStr c => Some (default (py_title (replace_underscore c)) (assoc_get c category_labels))
  | _ => None
  end.

Fixpoint map_opt {A B} (f : A -> option B) (l : list A) : option (list B) :=
  match l with
  | [] => Some []
  | x :: l' =>
      match f x with
      | None => None
      | Some y => match map_opt f l' with None => None | Some ys => Some (y :: ys) end
      end
  end.

(** One description line: [prefix + ", ".join(labels)] when [v] is truthy. *)
Definition describe_key (prefix : string) (label : json -> option string) (v : json)
  : option (list string) :=
  if truthy v then
    match py_iter v with
    | None => None
    | Some codes =>
        match map_opt label codes with
        | None => None
        | Some labels => Some [prefix ++ String.concat ", " labels]
        end
    end
  else Some [].

Definition _describe_filters (fc : gmap string json) : option (list string) :=
  if Nat.eqb (size fc) 0 then Some [] else
  match describe_key "Main categories: " category_label (main_categories_of fc) with
  | None => None
  | Some d1 =>
  match describe_key "Eligible for: " code_label
          (py_or (fc_get fc "eligible_categories") (JList [])) with
  | None => None
  | Some d2 =>
  match describe_key "Must have: " code_label
          (py_or (fc_get fc "require_flags") (JList [])) with
  | None => None
  | Some d3 =>
  match describe_key "Exclude: " code_label
          (py_or (fc_get fc "exclude_flags") (JList [])) with
  | None => None
  | Some d4 =>
      Some (d1 ++ d2 ++ d3 ++ d4 ++
            (if truthy (fc_get fc "whitelist_only") then ["Whitelist entries only"] else []))%list
  end end end end.

(* ------------------------------------------------------------------ *)
(** ** Stable sorting *)

(** [list.sort] is a stable sort using [<] only.  Insertion sort, which
    puts an element before the first element that is not smaller than
    it, computes the same permutation. *)
Section StableSort.
Context {A : Type} (lt : A -> A -> bool).

Fixpoint insert_by (x : A) (l : list A) : list A :=
  match l with
  | [] => [x]
  | y :: l' => if lt y x then y :: insert_by x l' else x :: l
  end.

Definition sort_by (l : list A) : list A := fold_right insert_by [] l.
End StableSort.

(** [list.sort(key=k, reverse=r)]: with [reverse=True] every comparison
    is reversed and equal elements keep their order. *)
Definition py_sort {A K} (key : A -> K) (klt : K -> K -> bool) (reverse : bool)
  (l : list A) : list A :=
  sort_by (fun a b => if reverse then klt (key b) (key a) else klt (key a) (key b)) l.

(* ------------------------------------------------------------------ *)
(** ** The view *)

Inductive Err := PermissionDenied | Http404 | PyException.

(** [_effective_role] *)
Definition _effective_role (u : User) : string :=
  if (is_superuser u || is_staff u) && negb (String.eqb (role u) ROLE_ADMIN)
  then ROLE_ADMIN else role u.

(** [show_scores = role in (User.Role.ADMIN, User.Role.JUDGE)] *)
Definition can_see_scores (r : string) : bool := existsb (String.eqb r) [ROLE_ADMIN; ROLE_JUDGE].

(** [_audience_filters] *)
Definition _audience_filters (r : string) : list string := ["all"; r].

(** [ProjectList.objects.filter(audience__in=...).order_by("title")]: the
    table is given in the order that query returns it. *)
Definition available_lists (r : string) (lists : list ProjectList) : list ProjectList :=
  List.filter (fun l => existsb (String.eqb (audience l)) (_audience_filters r)) lists.

(** The selection of [selected_list]; [inl Http404] is the [raise]. *)
Definition select_list (r : string) (avail : list ProjectList) (list_slug : string)
  : Err + option ProjectList :=
  if negb (String.eqb list_slug "") then
    match List.find (fun l => String.eqb (slug l) list_slug) avail with
    | Some l => inr (Some l)
    | None => inl Http404
    end
  else
    let default_candidates := List.filter is_default avail in
    let chosen :=
      match default_candidates with
      | [] => None
      | d :: _ =>
          match List.find (fun l => String.eqb (audience l) r) default_candidates with
          | Some l => Some l
          | None => Some d
          end
      end in
    match chosen with
    | Some l => inr (Some l)
    | None => inr (head avail)
    end.

(** Python's [Decimal] quotient [sum / len] rounds the exact quotient in
    the active context (28 digits, half-even).  The rounding is a
    parameter [dec_round] of everything below; sums of the 6-digit field
    values are exact. *)
Section Listing.
Variable dec_round : Q -> Q.

(** A [DecimalField(decimal_places=2)] value, from hundredths. *)
Definition cents (z : Z) : Q := Qmake z 100.

Definition list_max (v : Z) (vs : list Z) : Z := fold_left Z.max vs v.
Definition list_min (v : Z) (vs : list Z) : Z := fold_left Z.min vs v.

Record ScoreSummary := mkScoreSummary {
  count : nat;
  avg_raw : option Q;
  avg_scaled : option Q;
  max_raw : option Q;
  max_scaled : option Q;
  min_raw : option Q;
  min_scaled : option Q
}.

(** [sum(values, Decimal("0")) / len(values)] *)
Definition dec_avg (vs : list Z) : Q :=
  dec_round (cents (fold_left Z.add vs 0%Z) / inject_Z (Z.of_nat (length vs))).

Definition avg_of (vs : list Z) : option Q :=
  match vs with [] => None | _ => Some (dec_avg vs) end.
Definition max_of (vs : list Z) : option Q :=
  match vs with [] => None | v :: vs' => Some (cents (list_max v vs')) end.
Definition min_of (vs : list Z) : option Q :=
  match vs with [] => None | v :: vs' => Some (cents (list_min v vs')) end.

(** [_score_summary_from_records] *)
Definition _score_summary_from_records (records : list ScoreRecord)
  : option ScoreSummary :=
  match records with
  | [] => None
  | _ =>
      let raw_values := map raw_score records in
      let scaled_values := omap scaled_score records in
      Some {| count := length records;
              avg_raw := avg_of raw_values;
              avg_scaled := avg_of scaled_values;
              max_raw := max_of raw_values;
              max_scaled := max_of scaled_values;
              min_raw := min_of raw_values;
              min_scaled := min_of scaled_values |}
  end.

(** A display row.  The team, members and appointment fields of the
    row dict are display data that no decision reads; they are left out. *)
Record Row := mkRow {
  r_project : Project;
  r_entry : option Entry;
  r_attributes : list string;
  r_score_summary : option ScoreSummary
}.

Definition project_attributes (p : Project) : list string :=
  ((if is_beginner p then ["Beginner"] else []) ++
   (if is_mobile p then ["Mobile"] else []) ++
   (if is_web p then ["Web"] else []) ++
   (if uses_ai_ml p then ["AI/ML"] else []) ++
   (if is_roam p then ["Roam"] else []))%list.

(** [entry and entry.<flag>] *)
Definition entry_flag (f : Entry -> bool) (e : option Entry) : bool :=
  match e with Some e => f e | None => false end.

(** The [include] decision of the loop body. *)
Definition include_project (sel : option ProjectList) (fc : gmap string json)
  (whitelist_only : bool) (entry : option Entry) (p : Project) : option bool :=
  if entry_flag is_blacklisted entry then Some false
  else match sel with
  | Some _ =>
      match _project_matches_filter p fc with
      | None => None
      | Some m =>
          if whitelist_only then Some (entry_flag is_whitelisted entry)
          else if entry_flag is_whitelisted entry then Some true
          else Some m
      end
  | None => Some true
  end.

(** [_score_summary_from_records(score_records) if score_records else None] *)
Definition row_summary (p : Project) : option ScoreSummary :=
  match score_records p with
  | [] => None
  | rs => _score_summary_from_records rs
  end.

(** The [for project in projects] loop building [rows]. *)
Fixpoint build_rows (sel : option ProjectList) (fc : gmap string json)
  (whitelist_only : bool) (entries : gmap Z Entry) (ps : list Project)
  : option (list Row) :=
  match ps with
  | [] => Some []
  | p :: ps' =>
      let entry := entries !! p_id p in
      match include_project sel fc whitelist_only entry p with
      | None => None
      | Some inc =>
          match build_rows sel fc whitelist_only entries ps' with
          | None => None
          | Some rest =>
              Some (if inc then mkRow p entry (project_attributes p) (row_summary p) :: rest
                    else rest)
          end
      end
  end.

(** The values [sort_key] returns: a str, a datetime or a Decimal. *)
Inductive SortKey := KStr (s : string) | KTime (t : Z) | KDec (q : Q).

(** [<] on two keys of one sort. *)
Definition key_lt (a b : SortKey) : bool :=
  match a, b with
  | KStr x, KStr y => String.ltb x y
  | KTime x, KTime y => Z.ltb x y
  | KDec x, KDec y => negb (Qle_bool y x)
  | _, _ => false
  end.

(** [summary.get(k) or Decimal("-1")]: a missing value and a zero
    Decimal are both falsy. *)
Definition score_key (a : option Q) : SortKey :=
  match a with
  | Some q => if Qeq_bool q 0%Q then KDec (-1)%Q else KDec q
  | None => KDec (-1)%Q
  end.

Definition summary_get (f : ScoreSummary -> option Q) (s : option ScoreSummary) : option Q :=
  match s with Some s => f s | None => None end.

(** [sort_key] *)
Definition sort_key (sf : string) (item : Row) : SortKey :=
  if String.eqb sf ALPHABETICAL then KStr (lower (title (r_project item)))
  else if String.eqb sf CREATED then KTime (created_at (r_project item))
  else if String.eqb sf SCORE_RAW then score_key (summary_get avg_raw (r_score_summary item))
  else if String.eqb sf SCORE_SCALED then score_key (summary_get avg_scaled (r_score_summary item))
  else KStr (lower (title (r_project item))).

Definition is_manual (r : Row) : bool :=
  match r_entry r with
  | Some e => match manual_rank e with Some _ => true | None => false end
  | None => false
  end.

Definition manual_rank_of (r : Row) : nat :=
  match r_entry r with Some e => default 0 (manual_rank e) | None => 0 end.

(** Row dicts compare equal exactly when their projects do, and model
    instances compare by primary key. *)
Definition row_eqb (a b : Row) : bool := Z.eqb (p_id (r_project a)) (p_id (r_project b)).

(** [manual_rows + auto_rows], each sorted. *)
Definition order_rows (sf : string) (sort_desc : bool) (rows : list Row) : list Row :=
  let manual_rows := List.filter is_manual rows in
  let auto_rows := List.filter (fun row => negb (existsb (row_eqb row) manual_rows)) rows in
  (py_sort manual_rank_of Nat.ltb false manual_rows ++
   py_sort (sort_key sf) key_lt sort_desc auto_rows)%list.

(** [if limit: ordered_rows = ordered_rows[:limit]] *)
Definition apply_limit (lim : option nat) (l : list Row) : list Row :=
  match lim with
  | Some n => if Nat.eqb n 0 then l else firstn n l
  | None => l
  end.

(** A row together with the [rank] the view stores in it. *)
Record RankedRow := mkRankedRow { rank : nat; rr_row : Row }.

(** [for idx, row in enumerate(ordered_rows, start=i): row["rank"] = idx] *)
Fixpoint enumerate_from (i : nat) (l : list Row) : list RankedRow :=
  match l with
  | [] => []
  | r :: l' => mkRankedRow i r :: enumerate_from (S i) l'
  end.

Record ListResult := mkListResult {
  project_rows : list RankedRow;
  selected_list : option ProjectList;
  list_slug_out : string;
  show_scores : bool;
  total_projects : nat;
  display_count : nat;
  lr_limit : option nat;
  active_filters : list string
}.

(** The values the view reads off [selected_list], with their defaults
    when no list is selected. *)
Definition sel_entries (sel : option ProjectList) : gmap Z Entry :=
  match sel with Some l => pl_entries l | None => ∅ end.
(** [(selected_list.filter_config if selected_list else {}) or {}] *)
Definition sel_filter_config (sel : option ProjectList) : gmap string json :=
  match sel with Some l => filter_config l | None => ∅ end.
Definition sel_sort_field (sel : option ProjectList) : string :=
  match sel with Some l => sort_field l | None => ALPHABETICAL end.
Definition sel_sort_desc (sel : option ProjectList) : bool :=
  match sel with Some l => sort_descending l | None => false end.
Definition sel_limit (sel : option ProjectList) : option nat :=
  match sel with Some l => limit l | None => None end.

(** The policy guard on score-based sorting. *)
Definition effective_sort_field (show_scores : bool) (sf : string) : string :=
  if negb show_scores && (String.eqb sf SCORE_RAW || String.eqb sf SCORE_SCALED)
  then ALPHABETICAL else sf.

(** The included rows, in catalog order. *)
Definition listing_rows (sel : option ProjectList) (projects : list Project)
  : option (list Row) :=
  let fc := sel_filter_config sel in
  build_rows sel fc (truthy (fc_get fc "whitelist_only")) (sel_entries sel) projects.

(** [project_list]: [u] is the logged-in user, [lists] the [ProjectList]
    table, [projects] the [Project] table (with score records) in query
    order, [list_param] the [list] query parameter. *)
Definition project_list (u : User) (lists : list ProjectList) (projects : list Project)
  (list_param : option string) : Err + ListResult :=
  let r := _effective_role u in
  if negb (existsb (String.eqb r) [ROLE_ADMIN; ROLE_JUDGE; ROLE_HACKTJ]) then inl PermissionDenied else
  let show := can_see_scores r in
  let avail := available_lists r lists in
  let list_slug := strip (default "" list_param) in
  match select_list r avail list_slug with
  | inl e => inl e
  | inr sel =>
  let lim := sel_limit sel in
  let sf := effective_sort_field show (sel_sort_field sel) in
  match listing_rows sel projects with
  | None => inl PyException
  | Some rows =>
  let ordered_rows := apply_limit lim (order_rows sf (sel_sort_desc sel) rows) in
  match _describe_filters (sel_filter_config sel) with
  | None => inl PyException
  | Some af =>
      inr {| project_rows := enumerate_from 1 ordered_rows;
             selected_list := sel;
             list_slug_out := if String.eqb list_slug "" then
                                match sel with Some l => slug l | None => "" end
                              else list_slug;
             show_scores := show;
             total_projects := length projects;
             display_count := length ordered_rows;
             lr_limit := lim;
             active_filters := af |}
  end end end.

End Listing.

(* ------------------------------------------------------------------ *)
(** ** Views of a run used by the statements below *)

(** [l] with another [sort_field]. *)
Definition with_sort_field (l : ProjectList) (sf : string) : ProjectList :=
  mkProjectList (pl_title l) (slug l) (audience l) sf (sort_descending l) (limit l)
    (filter_config l) (is_default l) (pl_entries l).

(** [l] with a score-based [sort_field] replaced by [alphabetical]. *)
Definition alphabetical_instead_of_scores (l : ProjectList) : ProjectList :=
  if String.eqb (sort_field l) SCORE_RAW || String.eqb (sort_field l) SCORE_SCALED
  then with_sort_field l ALPHABETICAL else l.

(** [p] with its score records removed. *)
Definition without_scores (p : Project) : Project :=
  mkProject (p_id p) (title p) (main_category p) (eligible_categories p) (is_beginner p)
    (is_mobile p) (is_web p) (uses_ai_ml p) (is_roam p) (created_at p) []
    (p_other_attrs p).

(** Comparisons on a natural-number key. *)
Definition key_ltb {A} (key : A -> nat) (a b : A) : bool := Nat.ltb (key a) (key b).
Definition key_le {A} (key : A -> nat) (a b : A) : Prop := key a <= key b.
Definition key_is {A} (key : A -> nat) (k : nat) (a : A) : bool := Nat.eqb (key a) k.

(** Two rows of the same project and entry, up to score records. *)
Definition same_row_but_scores (a b : Row) : Prop :=
  without_scores (r_project a) = without_scores (r_project b) /\ r_entry a = r_entry b.

(** The displayed rows of a run, or its error. *)
Definition shown_rows (r : Err + ListResult) : Err + list RankedRow :=
  match r with inl e => inl e | inr res => inr (project_rows res) end.

(** The order of a run: rank and project id of each row, or its error. *)
Definition row_order (r : Err + ListResult) : Err + list (nat * Z) :=
  match r with
  | inl e => inl e
  | inr res => inr (map (fun x => (rank x, p_id (r_project (rr_row x)))) (project_rows res))
  end.

(** The values a [DecimalField(max_digits=6, decimal_places=2)] holds,
    in hundredths. *)
Definition field_range (z : Z) : Prop := (-1000000 < z < 1000000)%Z.

(** One axis of a summary, as computed from the axis's values [vs]: no
    statistic without values; otherwise the rounded mean, the largest and
    the smallest value, with the smallest <= mean <= largest. *)
Definition axis_summary_ok (dr : Q -> Q) (vs : list Z) (avg mx mn : option Q) : Prop :=
  match vs with
  | [] => avg = None /\ mx = None /\ mn = None
  | _ => exists a m M,
      avg = Some a /\ mx = Some M /\ mn = Some m /\
      a = dr (cents (fold_left Z.add vs 0%Z) / inject_Z (Z.of_nat (length vs)))%Q /\
      (exists v, In v vs /\ M = cents v) /\ (forall v, In v vs -> (cents v <= M)%Q) /\
      (exists v, In v vs /\ m = cents v) /\ (forall v, In v vs -> (m <= cents v)%Q) /\
      (m <= a <= M)%Q
  end.

(* ------------------------------------------------------------------ *)
(** ** Sample data: the scenario of the specification *)

Module Sample.
Definition no_other_attrs : string -> option bool := fun _ => None.

Definition project (i : Z) (t c : string) (beginner : bool) (sc : list ScoreRecord) : Project :=
  mkProject i t c [] beginner false true false false i sc no_other_attrs.

Definition pA := project 1 "Alpha" "sustainability" true [mkScoreRecord 8200%Z (Some 8850%Z)].
Definition pB := project 2 "Beta" "cyber" false [].
Definition pC := project 3 "Gamma" "sustainability" false [].

Definition focus_config : gmap string json :=
  <["main_categories" := JList [JStr "sustainability"]]>
    (<["require_flags" := JList [JStr "is_beginner"]]> ∅).

Definition eB : Entry := mkEntry true false (Some 1).
Definition eC : Entry := mkEntry false true None.

Definition focus_entries : gmap Z Entry := <[2%Z := eB]> (<[3%Z := eC]> ∅).

Definition focus : ProjectList :=
  mkProjectList "Sustainability Focus" "sustainability-focus" "admin" ALPHABETICAL
    false (Some 2) focus_config false focus_entries.

Definition admin : User := mkUser ROLE_ADMIN false false.
Definition ops : User := mkUser ROLE_HACKTJ false false.

(** A list for everyone with a stored limit of 0. *)
Definition all_projects : ProjectList :=
  mkProjectList "All Projects" "all-projects" "all" ALPHABETICAL false (Some 0) ∅ false ∅.

(** A list for everyone, best raw score first. *)
Definition by_score : ProjectList :=
  mkProjectList "By Score" "by-score" "all" SCORE_RAW true None ∅ false ∅.

Definition p_unscored := project 4 "Delta" "finance" false [].
Definition p_zero := project 5 "Epsilon" "finance" false [mkScoreRecord 0%Z None].
Definition p_negative := project 6 "Zeta" "finance" false [mkScoreRecord (-500)%Z None].

(** Exact rounding: agrees with [Decimal] on the quotients used here. *)
Definition exact (q : Q) : Q := q.
End Sample.


(* ------------------------------------------------------------------ *)
(** ** Other roles *)

Definition ROLE_TEAM := "team".
Definition ROLE_VOLUNTEER := "volunteer".

(* ------------------------------------------------------------------ *)
(** ** [_members_list] *)

(** [s.split(sep)]: the first piece and the pieces after it. *)
Fixpoint split_aux (sep : ascii) (s : string) : string * list string :=
  match s with
  | EmptyString => ("", [])
  | String c s' =>
      let (w, ws) := split_aux sep s' in
      if Ascii.eqb c sep then ("", w :: ws) else (String c w, ws)
  end.

Definition py_split (sep : ascii) (s : string) : list string :=
  let (w, ws) := split_aux sep s in w :: ws.

(** [_members_list(team)]: [team_members] is [None] when there is no
    team, and the loaded [team.members] JSON otherwise. *)
Definition _members_list (team_members : option json) : list json :=
  match team_members with
  | None | Some JNull => []
  | Some (JList ms) => List.filter truthy ms
  | Some (JStr s) =>
      let value := strip s in
      if String.eqb value "" then []
      else map (fun part => JStr (strip part))
             (List.filter (fun part => negb (String.eqb (strip part) ""))
                (py_split ","%char value))
  | Some _ => []
  end.

(* ------------------------------------------------------------------ *)
(** ** Side tracks and the category form *)

(** [s.add(x)] and [s.discard(x)] on a set held as a list without
    duplicates. *)
Definition set_add (x : string) (s : list string) : list string :=
  if existsb (String.eqb x) s then s else (s ++ [x])%list.

Definition set_discard (x : string) (s : list string) : list string :=
  List.filter (fun y => negb (String.eqb y x)) s.

(** [set(l)] *)
Definition py_set (l : list string) : list string :=
  fold_left (fun s x => set_add x s) l [].

(** [sorted(l)] on strings. *)
Definition py_sorted (l : list string) : list string :=
  py_sort (fun x : string => x) String.ltb false l.

Definition with_eligible (p : Project) (l : list string) : Project :=
  mkProject (p_id p) (title p) (main_category p) l (is_beginner p) (is_mobile p)
    (is_web p) (uses_ai_ml p) (is_roam p) (created_at p) (score_records p)
    (p_other_attrs p).

(** [_apply_side_track_flags(project, tracks)]: the project with its new
    [eligible_categories]. *)
Definition _apply_side_track_flags (p : Project) (tracks : gmap string json) : Project :=
  let eligible := py_set (eligible_categories p) in
  let eligible :=
    fold_left (fun s key =>
                 if truthy (fc_get tracks key) then set_add key s else set_discard key s)
      ["social_impact"; "coder"] eligible in
  with_eligible p (py_sorted eligible).

(** The initial data of [ProjectCategoryForm]. *)
Record CategoryInitial := mkCategoryInitial {
  ci_team_name : string;
  ci_main_category : string;
  ci_side_beginner : bool;
  ci_side_social_impact : bool;
  ci_side_mobile_web : string;
  ci_side_ai_ml : bool;
  ci_side_roam : bool;
  ci_side_coder : bool
}.

(** [_category_form_initial(team, project)] *)
Definition _category_form_initial (team_name : string) (p : Project) : CategoryInitial :=
  let eligible := py_set (eligible_categories p) in
  mkCategoryInitial team_name (main_category p) (is_beginner p)
    (existsb (String.eqb "social_impact") eligible)
    (if is_mobile p then "mobile" else "web")
    (uses_ai_ml p) (is_roam p)
    (existsb (String.eqb "coder") eligible).

(** [ProjectCategoryForm.cleaned_data] *)
Record CategoryData := mkCategoryData {
  cd_team_name : string;
  cd_main_category : string;
  cd_side_beginner : bool;
  cd_side_social_impact : bool;
  cd_side_mobile_web : string;
  cd_side_ai_ml : bool;
  cd_side_roam : bool;
  cd_side_coder : bool
}.

(** The saving branch of the category form in [project_detail]: the new
    team name and the new project. *)
Definition apply_category_form (data : CategoryData) (p : Project) : string * Project :=
  let selection := cd_side_mobile_web data in
  let p' := mkProject (p_id p) (title p) (cd_main_category data) (eligible_categories p)
              (cd_side_beginner data) (String.eqb selection "mobile")
              (String.eqb selection "web") (cd_side_ai_ml data) (cd_side_roam data)
              (created_at p) (score_records p) (p_other_attrs p) in
  (strip (cd_team_name data),
   _apply_side_track_flags p'
     (<["social_impact" := JBool (cd_side_social_impact data)]>
        (<["coder" := JBool (cd_side_coder data)]> ∅))).

(** [is_team_view] of [project_detail]: [team_account] is
    [team.account_id], [profile_team] the id of [user.team_profile] if the
    user has one, [team_id] the id of the project's team. *)
Definition is_team_view (role : string) (user_id : Z) (team_account profile_team : option Z)
  (team_id : Z) : bool :=
  String.eqb role ROLE_TEAM &&
  (match team_account with Some a => Z.eqb a user_id | None => false end ||
   match profile_team with Some t => Z.eqb t team_id | None => false end).

(** A POST to [project_detail] with a category form: [Some] of the saved
    team name, project and [category_submitted_at] when it saves, [None]
    when nothing is saved and the page is rendered again.  [form] is the
    cleaned data, [None] when the form is not valid.  The view reads the
    clock twice: [now] is the [timezone.now()] the deadline is checked
    against, [saved_at] the later [timezone.now()] stored as
    [category_submitted_at]. *)
Definition category_post (is_post team_view : bool) (form_type : option string)
  (now category_deadline : Z) (form : option CategoryData) (p : Project) (saved_at : Z)
  : option (string * Project * Z) :=
  if is_post && team_view then
    match form_type with
    | Some t =>
        if String.eqb t "category" then
          if Z.ltb category_deadline now then None
          else match form with
               | Some data =>
                   let (name, p') := apply_category_form data p in Some (name, p', saved_at)
               | None => None
               end
        else None
    | None => None
    end
  else None.

(* ------------------------------------------------------------------ *)
(** ** The score block of [project_detail] *)

(** [sum(values, Decimal("0")) if values else None] *)
Definition sum_opt (vs : list Z) : option Z :=
  match vs with [] => None | _ => Some (fold_left Z.add vs 0%Z) end.

(** [(total / n) if total is not None and n else None] *)
Definition detail_avg (dr : Q -> Q) (total : option Z) (n : nat) : option Q :=
  match total with
  | Some t => if Nat.eqb n 0 then None else Some (dr (cents t / inject_Z (Z.of_nat n))%Q)
  | None => None
  end.

(** The [score_records] of the page: [records] are the project's score
    records ordered by [-created_at]; none unless [show_scores]. *)
Definition detail_score_records (role : string) (records : list ScoreRecord)
  : list ScoreRecord :=
  if can_see_scores role then records else [].

(** The [score_summary] computed in [project_detail]. *)
Definition detail_score_summary (dr : Q -> Q) (score_records : list ScoreRecord)
  : option ScoreSummary :=
  let raw_values := map raw_score score_records in
  let scaled_values := omap scaled_score score_records in
  match score_records with
  | [] => None
  | _ =>
      let count_raw := length raw_values in
      let count_scaled := length scaled_values in
      Some {| count := length score_records;
              avg_raw := detail_avg dr (sum_opt raw_values) count_raw;
              avg_scaled := detail_avg dr (sum_opt scaled_values) count_scaled;
              max_raw := max_of raw_values;
              max_scaled := max_of scaled_values;
              min_raw := min_of raw_values;
              min_scaled := min_of scaled_values |}
  end.


(* ------------------------------------------------------------------ *)
(** ** [food_checkin] *)

(** [FoodCheckInStatus]: the four meals, and who checked the badge in
    last and when (a user id and a timestamp). *)
Record FoodStatus := mkFoodStatus {
  breakfast : bool;
  lunch : bool;
  dinner : bool;
  midnight_snack : bool;
  last_checked_in_by : option Z;
  last_checked_in_at : option Z
}.

(** The row [get_or_create] makes for a new badge. *)
Definition new_food_status : FoodStatus := mkFoodStatus false false false false None None.

Definition meal_options : list (string * string) :=
  [("breakfast", "Breakfast"); ("lunch", "Lunch"); ("dinner", "Dinner");
   ("midnight_snack", "Midnight Snack")].

(** [getattr(status_obj, meal)], for a key of [meal_options]. *)
Definition get_meal (st : FoodStatus) (meal : string) : bool :=
  if String.eqb meal "breakfast" then breakfast st
  else if String.eqb meal "lunch" then lunch st
  else if String.eqb meal "dinner" then dinner st
  else if String.eqb meal "midnight_snack" then midnight_snack st
  else false.

(** [setattr(status_obj, meal, True)] and the two audit fields. *)
Definition check_in_meal (st : FoodStatus) (meal : string) (user_id now : Z) : FoodStatus :=
  mkFoodStatus
    (if String.eqb meal "breakfast" then true else breakfast st)
    (if String.eqb meal "lunch" then true else lunch st)
    (if String.eqb meal "dinner" then true else dinner st)
    (if String.eqb meal "midnight_snack" then true else midnight_snack st)
    (Some user_id) (Some now).

Record CheckinContext := mkCheckinContext {
  ck_status : option (string * string);
  ck_status_data : option (bool * bool * bool * bool);
  ck_submitted_badge_id : option string;
  ck_selected_meal : option string
}.

(** [food_checkin]: [store] is the [FoodCheckInStatus] table keyed by
    badge id; [post] is [None] for a GET and the raw [badge_id] and
    [meal] fields of a POST otherwise. *)
Definition food_checkin (u : User) (user_id now : Z) (store : gmap string FoodStatus)
  (post : option (option string * option string))
  : Err + (CheckinContext * gmap string FoodStatus) :=
  let r := _effective_role u in
  if negb (existsb (String.eqb r) [ROLE_ADMIN; ROLE_VOLUNTEER; ROLE_HACKTJ])
  then inl PermissionDenied else
  match post with
  | None => inr (mkCheckinContext None None None None, store)
  | Some (b, m) =>
      let badge_id := strip (default "" b) in
      let meal := strip (default "" m) in
      let valid_meals := map fst meal_options in
      if String.eqb badge_id "" || String.eqb meal "" then
        inr (mkCheckinContext (Some ("error", "Scan a badge ID and select a meal.")) None
               (Some badge_id) (Some meal), store)
      else if negb (existsb (String.eqb meal) valid_meals) then
        inr (mkCheckinContext (Some ("error", "Invalid meal selection.")) None
               (Some badge_id) (Some meal), store)
      else
        let '(status_obj, store) :=
          match store !! badge_id with
          | Some st => (st, store)
          | None => (new_food_status, <[badge_id := new_food_status]> store)
          end in
        let '(status, status_obj, store) :=
          if get_meal status_obj meal then
            (("warn", "Already eaten (" ++ replace_underscore meal ++ ")"), status_obj, store)
          else
            let st := check_in_meal status_obj meal user_id now in
            (("success", "Enjoy your " ++ replace_underscore meal ++ "!"), st,
             <[badge_id := st]> store) in
        inr (mkCheckinContext (Some status)
               (Some (breakfast status_obj, lunch status_obj, dinner status_obj,
                      midnight_snack status_obj))
               (Some badge_id) (Some meal), store)
  end.

(* ------------------------------------------------------------------ *)
(** ** [my_project_entry] *)

Inductive EntryOutcome :=
| RedirectDashboard (message : string)
| RedirectDetail (project_id : Z) (created_title : option string).

(** [my_project_entry]: [team] is the user's team profile as its id, its
    name and the id of its project if it has one; [new_id] is the id a
    created project gets. *)
Definition my_project_entry (u : User) (team : option (Z * string * option Z)) (new_id : Z)
  : EntryOutcome :=
  if negb (String.eqb (_effective_role u) ROLE_TEAM) then
    RedirectDashboard "Only team accounts can access the project submission page."
  else match team with
  | None =>
      RedirectDashboard
        "You need a team profile before submitting a project. Contact an organizer."
  | Some (_, _, Some pid) => RedirectDetail pid None
  | Some (tid, name, None) =>
      let default_title :=
        let t := strip (name ++ " Project") in
        if String.eqb t "" then "Team " ++ pretty tid ++ " Project" else t in
      RedirectDetail new_id (Some default_title)
  end.

(* ------------------------------------------------------------------ *)
(** ** Presentations *)

(** [s.replace(old, new)] for a non-empty [old]: occurrences are replaced
    from left to right without overlapping; [drop] counts the characters
    of a replaced occurrence still to skip. *)
Fixpoint replace_go (old new : string) (drop : nat) (s : string) : string :=
  match s with
  | EmptyString => EmptyString
  | String c s' =>
      match drop with
      | S d => replace_go old new d s'
      | O =>
          if String.prefix old s then new ++ replace_go old new (String.length old - 1) s'
          else String c (replace_go old new 0 s')
      end
  end.

Definition py_replace (old new s : string) : string := replace_go old new 0 s.

Definition SLIDES := "docs.google.com/presentation".

(** [_presentation_embed_url(presentation)]: [link] is
    [presentation.link_url], [None] when there is no presentation. *)
Definition _presentation_embed_url (link : option string) : option string :=
  match link with
  | None => None
  | Some l =>
      if String.eqb l "" then None else
      let url := strip l in
      if str_contains SLIDES url then
        if str_contains "/embed" url then Some url
        else if str_contains "/edit" url then Some (py_replace "/edit" "/embed" url)
        else if str_contains "edit?" url then Some (py_replace "edit?" "embed?" url)
        else Some url
      else None
  end.

(** [PresentationSubmission.clean]: [true] when it raises no
    [ValidationError]. *)
Definition presentation_clean (link_url : string) : bool :=
  negb (String.eqb link_url "") && str_contains SLIDES link_url.


(** ** [presentation_viewer] *)

Inductive ViewerOutcome :=
| ViewerNotFound
| ViewerDenied
| ViewerShow (presentation_embed_url : option string).

(** [getattr(team, "project_id", None)]: [Team] declares no field
    [project_id]; the link is the one-to-one [Project.team], whose reverse
    accessor on [Team] is [project], so the lookup returns its default. *)
Definition team_project_id_attr (team_id : Z) : option Z := None.

(** [presentation_viewer]: [team_profile] is the id of
    [user.team_profile] if the user has one; [projects] maps the id of
    each project to the [link_url] of its presentation, [None] when it has
    none. *)
Definition presentation_viewer (u : User) (team_profile : option Z)
  (projects : gmap Z (option string)) (project_id : Z) : ViewerOutcome :=
  let r := _effective_role u in
  match projects !! project_id with
  | None => ViewerNotFound
  | Some presentation =>
      if String.eqb r ROLE_TEAM then
        match team_profile with
        | None => ViewerDenied
        | Some t =>
            match team_project_id_attr t with
            | Some pid => if Z.eqb pid project_id
                          then ViewerShow (_presentation_embed_url presentation)
                          else ViewerDenied
            | None => ViewerDenied
            end
        end
      else if existsb (String.eqb r) [ROLE_JUDGE; ROLE_ADMIN; ROLE_HACKTJ]
      then ViewerShow (_presentation_embed_url presentation)
      else ViewerDenied
  end.


(** ** [dashboard] *)

(** The section flags of the [dashboard] context. *)
Record DashboardFlags := mkDashboardFlags {
  show_forms : bool;
  show_project_sections : bool;
  show_category_section : bool;
  show_judging : bool;
  show_master_projects : bool;
  show_integrity : bool;
  show_scoreboard : bool;
  show_admin_panel : bool
}.

Definition dashboard_flags (u : User) : DashboardFlags :=
  let r := _effective_role u in
  let is_team_role := String.eqb r ROLE_TEAM in
  mkDashboardFlags
    is_team_role
    is_team_role
    is_team_role
    (is_team_role || existsb (String.eqb r) [ROLE_JUDGE; ROLE_ADMIN; ROLE_HACKTJ])
    (existsb (String.eqb r) [ROLE_ADMIN; ROLE_JUDGE; ROLE_HACKTJ])
    (existsb (String.eqb r) [ROLE_ADMIN; ROLE_JUDGE])
    (existsb (String.eqb r) [ROLE_ADMIN; ROLE_JUDGE])
    (String.eqb r ROLE_ADMIN).


(** Strings as lists of characters, and a list that does not start with
    whitespace. *)
Abbreviation los := String.list_ascii_of_string.
Abbreviation sol := String.string_of_list_ascii.

Definition head_ok (l : list ascii) : Prop :=
  match l with c :: _ => is_space c = false | [] => True end.

(* ------------------------------------------------------------------ *)
(** ** More sample data *)

Module Sample2.
Import Sample.

(** A list for everyone that shows its whitelisted entries only. *)
Definition wl_entries : gmap Z Entry := <[1%Z := mkEntry true false None]> ∅.
Definition wl_only : ProjectList :=
  mkProjectList "Picks" "picks" "all" ALPHABETICAL false None
    (<["whitelist_only" := JBool true]> ∅) false wl_entries.

(** A list whose filter requires and excludes the beginner flag. *)
Definition conflict_config : gmap string json :=
  <["require_flags" := JList [JStr "beginner"]]>
    (<["exclude_flags" := JList [JStr "is_beginner"; JStr "beginner"]]> ∅).
Definition conflict : ProjectList :=
  mkProjectList "Conflict" "conflict" "all" ALPHABETICAL false None
    conflict_config false (<[2%Z := mkEntry true false None]> ∅).

(** Two default lists, one for judges. *)
Definition default_all : ProjectList :=
  mkProjectList "Default" "default" "all" ALPHABETICAL false None ∅ true ∅.
Definition default_judge : ProjectList :=
  mkProjectList "Judging" "judging" "judge" ALPHABETICAL false None ∅ true ∅.

Definition judge : User := mkUser ROLE_JUDGE false false.
(** A staff account whose role is [team]. *)
Definition staff_team : User := mkUser ROLE_TEAM false true.
End Sample2.

(* ------------------------------------------------------------------ *)
(** * Properties *)

(** ** The stable sort *)

Section SortFacts.
Context {A : Type}.

Lemma insert_by_perm (lt : A -> A -> bool) x l : insert_by lt x l ≡ₚ x :: l.
Proof.
  induction l as [|y l IH]; simpl; [done|].
  destruct (lt y x); [|done].
  rewrite IH. constructor.
Qed.

Lemma sort_by_perm (lt : A -> A -> bool) l : sort_by lt l ≡ₚ l.
Proof.
  induction l as [|x l IH]; simpl; [done|].
  rewrite insert_by_perm. by rewrite IH.
Qed.

Context (key : A -> nat).
Local Abbreviation key_ltb := (key_ltb key).
Local Abbreviation key_le := (key_le key).
Local Abbreviation key_is := (key_is key).

(** Elements of one key keep their relative order through an insertion. *)
Lemma filter_key_insert k x l :
  List.filter (key_is k) (insert_by key_ltb x l) = List.filter (key_is k) (x :: l).
Proof.
  induction l as [|y l IH]; simpl; [done|].
  unfold key_ltb at 1. destruct (Nat.ltb_spec (key y) (key x)) as [Hlt|Hge].
  - simpl. rewrite IH. simpl. unfold key_is.
    destruct (Nat.eqb_spec (key x) k); destruct (Nat.eqb_spec (key y) k); try lia; done.
  - done.
Qed.

Lemma filter_key_sort k l :
  List.filter (key_is k) (sort_by key_ltb l) = List.filter (key_is k) l.
Proof.
  induction l as [|x l IH]; simpl; [done|].
  rewrite filter_key_insert. simpl. by rewrite IH.
Qed.

Lemma insert_by_hd y x l :
  HdRel key_le y l -> key y <= key x -> HdRel key_le y (insert_by key_ltb x l).
Proof.
  intros Hhd Hyx. destruct l as [|z l]; simpl.
  - constructor. exact Hyx.
  - destruct (key_ltb z x); constructor.
    + by inversion Hhd.
    + exact Hyx.
Qed.

Lemma insert_by_sorted x l :
  Sorted key_le l -> Sorted key_le (insert_by key_ltb x l).
Proof.
  induction 1 as [|y l Hs IH Hhd]; simpl.
  - repeat constructor.
  - unfold key_ltb at 1. destruct (Nat.ltb_spec (key y) (key x)) as [Hlt|Hge].
    + constructor; [exact IH|]. apply insert_by_hd; [exact Hhd|lia].
    + constructor; [constructor; assumption|]. constructor. unfold key_le. lia.
Qed.

Lemma sort_by_sorted l : Sorted key_le (sort_by key_ltb l).
Proof.
  induction l as [|x l IH]; simpl; [constructor|]. by apply insert_by_sorted.
Qed.
End SortFacts.

Lemma sorted_firstn {A} (R : A -> A -> Prop) n l : Sorted R l -> Sorted R (firstn n l).
Proof.
  intros Hs. revert n. induction Hs as [|x l Hs IH Hhd]; intros n; destruct n; simpl;
    try constructor.
  - apply IH.
  - destruct l as [|y l]; destruct n; simpl; constructor. by inversion Hhd.
Qed.

Lemma filter_sublist {A} (f : A -> bool) l : List.filter f l `sublist_of` l.
Proof.
  induction l as [|x l IH]; simpl; [constructor|].
  destruct (f x); [by apply sublist_skip | by apply sublist_cons].
Qed.

Lemma filter_firstn_sublist {A} (f : A -> bool) n l :
  List.filter f (firstn n l) `sublist_of` List.filter f l.
Proof.
  revert n. induction l as [|x l IH]; intros [|n]; simpl; try constructor.
  - apply sublist_nil_l.
  - destruct (f x); [apply sublist_skip|]; apply IH.
Qed.

Lemma filter_complement_perm {A} (f : A -> bool) l :
  (List.filter f l ++ List.filter (fun x => negb (f x)) l)%list ≡ₚ l.
Proof.
  induction l as [|x l IH]; simpl; [done|].
  destruct (f x); simpl.
  - by rewrite IH.
  - rewrite <- Permutation_middle. by rewrite IH.
Qed.

(** ** Ranks *)

Lemma enumerate_rows i l : map rr_row (enumerate_from i l) = l.
Proof. revert i. induction l as [|r l IH]; intros i; simpl; [done|]. by rewrite IH. Qed.

Lemma enumerate_ranks i l : map rank (enumerate_from i l) = seq i (length l).
Proof. revert i. induction l as [|r l IH]; intros i; simpl; [done|]. by rewrite IH. Qed.

(** ** Rows *)

(** Each included row carries the entry of its project, passed the
    [include] decision, and the rows follow the catalog order. *)
Lemma build_rows_spec dr sel fc wl ents ps rows :
  build_rows dr sel fc wl ents ps = Some rows ->
  Forall (fun r => r_entry r = ents !! p_id (r_project r) /\
                   include_project sel fc wl (r_entry r) (r_project r) = Some true) rows /\
  map r_project rows `sublist_of` ps.
Proof.
  revert rows. induction ps as [|p ps IH]; intros rows H; simpl in H.
  - injection H as <-. split; constructor.
  - destruct (include_project sel fc wl (ents !! p_id p) p) as [inc|] eqn:Hinc; [|done].
    destruct (build_rows dr sel fc wl ents ps) as [rest|] eqn:Hrest; [|done].
    injection H as <-. destruct (IH rest eq_refl) as [Hf Hs].
    destruct inc; simpl.
    + split; [constructor; [split; done|exact Hf]|]. by apply sublist_skip.
    + split; [exact Hf|]. by apply sublist_cons.
Qed.

Lemma row_eqb_refl r : row_eqb r r = true.
Proof. unfold row_eqb. apply Z.eqb_refl. Qed.

(** [row not in manual_rows] selects exactly the rows without a manual
    rank, because rows of one project id share their entry. *)
Lemma auto_rows_eq (ents : gmap Z Entry) rows :
  Forall (fun r => r_entry r = ents !! p_id (r_project r)) rows ->
  List.filter (fun row => negb (existsb (row_eqb row) (List.filter is_manual rows))) rows =
  List.filter (fun r => negb (is_manual r)) rows.
Proof.
  intros Hf. apply filter_ext_in. intros r Hr. f_equal.
  destruct (is_manual r) eqn:Hm.
  - apply existsb_exists. exists r. split; [|apply row_eqb_refl].
    apply filter_In. by split.
  - apply not_true_is_false. intros Hex. apply existsb_exists in Hex as [m [Hm' Heq]].
    apply filter_In in Hm' as [Hmin Hmm].
    rewrite List.Forall_forall in Hf.
    pose proof (Hf r Hr) as Er. pose proof (Hf m Hmin) as Em.
    unfold row_eqb in Heq. apply Z.eqb_eq in Heq.
    assert (r_entry r = r_entry m) as Hre by (rewrite Er, Em, Heq; reflexivity).
    unfold is_manual in Hm, Hmm. rewrite Hre in Hm. congruence.
Qed.

Lemma order_rows_split (ents : gmap Z Entry) sf d rows :
  Forall (fun r => r_entry r = ents !! p_id (r_project r)) rows ->
  order_rows sf d rows =
  (sort_by (key_ltb manual_rank_of) (List.filter is_manual rows) ++
   py_sort (sort_key sf) key_lt d (List.filter (fun r => negb (is_manual r)) rows))%list.
Proof.
  intros Hf. unfold order_rows. rewrite (auto_rows_eq ents rows Hf). reflexivity.
Qed.

Lemma order_rows_perm (ents : gmap Z Entry) sf d rows :
  Forall (fun r => r_entry r = ents !! p_id (r_project r)) rows ->
  order_rows sf d rows ≡ₚ rows.
Proof.
  intros Hf. rewrite (order_rows_split ents sf d rows Hf). unfold py_sort.
  rewrite !sort_by_perm. apply filter_complement_perm.
Qed.

Lemma listing_rows_spec dr sel ps rows :
  listing_rows dr sel ps = Some rows ->
  Forall (fun r => r_entry r = sel_entries sel !! p_id (r_project r)) rows /\
  map r_project rows `sublist_of` ps.
Proof.
  unfold listing_rows. intros H. apply build_rows_spec in H as [Hf Hs].
  split; [|exact Hs]. eapply Forall_impl; [exact Hf|]. by intros r [? ?].
Qed.

(** A successful run: the rows shown are the included rows, ordered,
    cut to the limit, and numbered from 1. *)
Lemma project_list_inv dr u lists ps param res :
  project_list dr u lists ps param = inr res ->
  exists rows,
    listing_rows dr (selected_list res) ps = Some rows /\
    lr_limit res = sel_limit (selected_list res) /\
    project_rows res =
      enumerate_from 1 (apply_limit (lr_limit res)
        (order_rows (effective_sort_field (show_scores res) (sel_sort_field (selected_list res)))
                    (sel_sort_desc (selected_list res)) rows)).
Proof.
  unfold project_list. intros H.
  destruct (negb _); [discriminate|].
  destruct (select_list _ _ _) as [e|sel]; [discriminate|].
  destruct (listing_rows dr sel ps) as [rows|] eqn:Hrows; [|discriminate].
  destruct (_describe_filters _) as [af|]; [|discriminate].
  injection H as <-. simpl. exists rows. done.
Qed.

Lemma apply_limit_in lim l r : In r (apply_limit lim l) -> In r l.
Proof.
  destruct lim as [n|]; simpl; [|done].
  destruct (Nat.eqb n 0); [done|]. revert n. induction l as [|x l IH]; intros [|n]; simpl;
    try done. intros [->|Hin]; [by left|right; by apply (IH n)].
Qed.

Lemma enumerate_in i l x : In x (enumerate_from i l) -> In (rr_row x) l.
Proof. intros Hin. rewrite <- (enumerate_rows i l). by apply in_map. Qed.

(** Every displayed row is one of the included rows. *)
Lemma project_list_rows_in dr u lists ps param res x :
  project_list dr u lists ps param = inr res ->
  In x (project_rows res) ->
  exists rows, listing_rows dr (selected_list res) ps = Some rows /\ In (rr_row x) rows.
Proof.
  intros H Hx. destruct (project_list_inv _ _ _ _ _ _ H) as (rows & Hrows & _ & Hpr).
  exists rows. split; [exact Hrows|].
  rewrite Hpr in Hx. apply enumerate_in, apply_limit_in in Hx.
  destruct (listing_rows_spec _ _ _ _ Hrows) as [Hf _].
  eapply Permutation_in; [|exact Hx]. eapply order_rows_perm. exact Hf.
Qed.

(** ** C1 *)

(** C1: blacklist always wins.  When the entry of a project in the
    selected list is blacklisted, no displayed row belongs to that
    project, whatever its structural match, its whitelist flag and the
    whitelist-only setting. *)
Theorem blacklist_always_wins dr u lists ps param res l p e :
  project_list dr u lists ps param = inr res ->
  selected_list res = Some l ->
  pl_entries l !! p_id p = Some e ->
  is_blacklisted e = true ->
  Forall (fun x => p_id (r_project (rr_row x)) <> p_id p) (project_rows res).
Proof.
  intros H Hsel He Hb. apply List.Forall_forall. intros x Hx Hid.
  destruct (project_list_rows_in _ _ _ _ _ _ _ H Hx) as (rows & Hrows & Hin).
  unfold listing_rows in Hrows. apply build_rows_spec in Hrows as [Hf _].
  rewrite List.Forall_forall in Hf. destruct (Hf _ Hin) as [Hent Hinc].
  rewrite Hsel in Hent. simpl in Hent. rewrite Hid, He in Hent.
  rewrite Hent in Hinc. unfold include_project, entry_flag in Hinc.
  rewrite Hb in Hinc. discriminate.
Qed.

Lemma blacklist_always_wins_witness :
  exists res,
    project_list Sample.exact Sample.admin [Sample.focus]
      [Sample.pA; Sample.pB; Sample.pC] (Some "sustainability-focus") = inr res /\
    Forall (fun x => p_id (r_project (rr_row x)) <> p_id Sample.pC) (project_rows res).
Proof.
  eexists. split; [reflexivity|].
  apply (blacklist_always_wins Sample.exact Sample.admin [Sample.focus]
           [Sample.pA; Sample.pB; Sample.pC] (Some "sustainability-focus") _
           Sample.focus Sample.pC Sample.eC); reflexivity.
Defined.

(** ** Transport lemmas *)

Lemma filter_map_comm {A B} (f : A -> B) (g : B -> bool) l :
  List.filter g (map f l) = map f (List.filter (fun x => g (f x)) l).
Proof. induction l as [|x l IH]; simpl; [done|]. destruct (g (f x)); simpl; by rewrite IH. Qed.

Lemma find_map_comm {A B} (f : A -> B) (g : B -> bool) l :
  List.find g (map f l) = option_map f (List.find (fun x => g (f x)) l).
Proof. induction l as [|x l IH]; simpl; [done|]. by destruct (g (f x)). Qed.

Lemma find_ext {A} (g h : A -> bool) l :
  (forall x, g x = h x) -> List.find g l = List.find h l.
Proof. intros Hgh. induction l as [|x l IH]; simpl; [done|]. by rewrite Hgh, IH. Qed.

Section SameKeys.
Variable f : ProjectList -> ProjectList.
Hypothesis f_keys : forall l, slug (f l) = slug l /\ audience (f l) = audience l /\
                              is_default (f l) = is_default l.

Lemma available_lists_map r lists :
  available_lists r (map f lists) = map f (available_lists r lists).
Proof.
  unfold available_lists. rewrite filter_map_comm. f_equal.
  apply filter_ext. intros l. by destruct (f_keys l) as (_ & -> & _).
Qed.

Lemma select_list_map r avail s :
  select_list r (map f avail) s =
  match select_list r avail s with inl e => inl e | inr o => inr (option_map f o) end.
Proof.
  unfold select_list. destruct (negb _).
  - rewrite find_map_comm.
    rewrite (find_ext (fun x => String.eqb (slug (f x)) s) (fun l => String.eqb (slug l) s))
      by (intros l; by destruct (f_keys l) as (-> & _ & _)).
    by destruct (List.find _ avail).
  - rewrite filter_map_comm.
    rewrite (filter_ext (fun x => is_default (f x)) is_default)
      by (intros l; by destruct (f_keys l) as (_ & _ & ->)).
    destruct (List.filter is_default avail) as [|d ds] eqn:Hd; simpl.
    + by destruct avail.
    + destruct (f_keys d) as (_ & Had & _). rewrite Had.
      destruct (String.eqb (audience d) r); simpl; [done|].
      rewrite find_map_comm.
      rewrite (find_ext (fun x => String.eqb (audience (f x)) r)
                 (fun l => String.eqb (audience l) r))
        by (intros l; by destruct (f_keys l) as (_ & -> & _)).
      by destruct (List.find _ ds).
Qed.
End SameKeys.

(** The rows depend on the selected list only through its filter and
    entries, and on whether a list is selected at all. *)
Lemma build_rows_sel dr sel1 sel2 fc wl ents ps :
  is_Some sel1 <-> is_Some sel2 ->
  build_rows dr sel1 fc wl ents ps = build_rows dr sel2 fc wl ents ps.
Proof.
  intros Hs. assert (forall e p, include_project sel1 fc wl e p = include_project sel2 fc wl e p)
    as Hinc.
  { intros e p. unfold include_project.
    destruct sel1 as [l1|], sel2 as [l2|]; try reflexivity;
      exfalso; apply (is_Some_None (A:=ProjectList)); apply Hs; eexists; reflexivity. }
  induction ps as [|p ps IH]; simpl; [done|]. by rewrite Hinc, IH.
Qed.

(** [_project_matches_filter] reads a project only through its main
    category, its eligible categories and its attributes. *)
Section SameFilterView.
Variables p q : Project.
Hypothesis Hmc : main_category p = main_category q.
Hypothesis Hel : eligible_categories p = eligible_categories q.
Hypothesis Hat : forall s, project_attr p s = project_attr q s.

Lemma any_eligible_same codes : any_eligible p codes = any_eligible q codes.
Proof.
  induction codes as [|c cs IH]; simpl; [done|].
  unfold in_eligible_set. rewrite Hel. by rewrite IH.
Qed.

Lemma require_loop_same fs : require_loop p fs = require_loop q fs.
Proof.
  induction fs as [|f fs IH]; simpl; [done|].
  unfold getattr_truthy. destruct (flag_field f); [|done]. by rewrite Hat, IH.
Qed.

Lemma exclude_loop_same fs : exclude_loop p fs = exclude_loop q fs.
Proof.
  induction fs as [|f fs IH]; simpl; [done|].
  unfold getattr_truthy. destruct (flag_field f); [|done]. by rewrite Hat, IH.
Qed.

Lemma check_main_same v : check_main p v = check_main q v.
Proof. unfold check_main. by rewrite Hmc. Qed.

Lemma check_eligible_same v : check_eligible p v = check_eligible q v.
Proof.
  unfold check_eligible. destruct (truthy v); [|done].
  destruct (py_iter v); [|done]. apply any_eligible_same.
Qed.

Lemma matches_same fc : _project_matches_filter p fc = _project_matches_filter q fc.
Proof.
  unfold _project_matches_filter. rewrite check_main_same, check_eligible_same.
  destruct (Nat.eqb _ 0); [done|].
  destruct (check_main q _) as [[]|]; try done.
  destruct (check_eligible q _) as [[]|]; try done.
  destruct (iter_or_empty _) as [rf|]; [|done].
  rewrite require_loop_same. destruct (require_loop q rf) as [[]|]; try done.
  destruct (iter_or_empty _) as [ef|]; [|done]. apply exclude_loop_same.
Qed.
End SameFilterView.

Lemma matches_without_scores p fc :
  _project_matches_filter (without_scores p) fc = _project_matches_filter p fc.
Proof. apply matches_same; [done|done|]. intros s. by destruct p. Qed.

Lemma p_id_without_scores p : p_id (without_scores p) = p_id p.
Proof. by destruct p. Qed.

Lemma title_without_scores p : title (without_scores p) = title p.
Proof. by destruct p. Qed.

Lemma created_at_without_scores p : created_at (without_scores p) = created_at p.
Proof. by destruct p. Qed.

Section Forall2Facts.
Context {A B : Type} (R : A -> B -> Prop).

Lemma insert_by_Forall2 (lt1 : A -> A -> bool) (lt2 : B -> B -> bool) x y l1 l2 :
  (forall a a' b b', R a b -> R a' b' -> lt1 a a' = lt2 b b') ->
  R x y -> Forall2 R l1 l2 -> Forall2 R (insert_by lt1 x l1) (insert_by lt2 y l2).
Proof.
  intros Hlt Hxy Hl. induction Hl as [|a b l1 l2 Hab Hl IH]; simpl.
  - by repeat constructor.
  - rewrite (Hlt a x b y Hab Hxy). destruct (lt2 b y); by repeat constructor.
Qed.

Lemma sort_by_Forall2 (lt1 : A -> A -> bool) (lt2 : B -> B -> bool) l1 l2 :
  (forall a a' b b', R a b -> R a' b' -> lt1 a a' = lt2 b b') ->
  Forall2 R l1 l2 -> Forall2 R (sort_by lt1 l1) (sort_by lt2 l2).
Proof.
  intros Hlt Hl. induction Hl as [|a b l1 l2 Hab Hl IH]; simpl; [constructor|].
  by apply insert_by_Forall2.
Qed.

Lemma filter_Forall2 (f : A -> bool) (g : B -> bool) l1 l2 :
  (forall a b, R a b -> f a = g b) ->
  Forall2 R l1 l2 -> Forall2 R (List.filter f l1) (List.filter g l2).
Proof.
  intros Hfg Hl. induction Hl as [|a b l1 l2 Hab Hl IH]; simpl; [constructor|].
  rewrite (Hfg a b Hab). destruct (g b); [constructor|]; done.
Qed.

Lemma firstn_Forall2 n l1 l2 :
  Forall2 R l1 l2 -> Forall2 R (firstn n l1) (firstn n l2).
Proof.
  intros Hl. revert n. induction Hl as [|a b l1 l2 Hab Hl IH]; intros [|n]; simpl;
    by constructor.
Qed.
End Forall2Facts.

Lemma include_without_scores sel fc wl e p1 p2 :
  without_scores p1 = without_scores p2 ->
  include_project sel fc wl e p1 = include_project sel fc wl e p2.
Proof.
  intros H. unfold include_project.
  by rewrite <- (matches_without_scores p1), H, matches_without_scores.
Qed.

Lemma build_rows_without_scores dr1 dr2 sel fc wl ents ps1 ps2 :
  map without_scores ps1 = map without_scores ps2 ->
  match build_rows dr1 sel fc wl ents ps1, build_rows dr2 sel fc wl ents ps2 with
  | Some r1, Some r2 => Forall2 same_row_but_scores r1 r2
  | None, None => True
  | _, _ => False
  end.
Proof.
  revert ps2. induction ps1 as [|p1 ps1 IH]; intros [|p2 ps2] H; cbn [map] in H;
    try discriminate; cbn [build_rows]; [constructor|].
  assert (Hp : without_scores p1 = without_scores p2) by congruence.
  assert (Hps : map without_scores ps1 = map without_scores ps2) by congruence.
  assert (p_id p1 = p_id p2) as Hid
    by (rewrite <- (p_id_without_scores p1), Hp; apply p_id_without_scores).
  rewrite Hid, (include_without_scores sel fc wl _ p1 p2 Hp).
  destruct (include_project sel fc wl (ents !! p_id p2) p2) as [inc|]; [|done].
  specialize (IH ps2 Hps).
  destruct (build_rows dr1 sel fc wl ents ps1), (build_rows dr2 sel fc wl ents ps2);
    try done.
  destruct inc; [|done]. constructor; [split; simpl; [exact Hp|done]|exact IH].
Qed.

Lemma is_manual_same a b : same_row_but_scores a b -> is_manual a = is_manual b.
Proof. intros [_ He]. unfold is_manual. by rewrite He. Qed.

Lemma manual_rank_same a b : same_row_but_scores a b -> manual_rank_of a = manual_rank_of b.
Proof. intros [_ He]. unfold manual_rank_of. by rewrite He. Qed.

Lemma sort_key_same sf a b :
  String.eqb sf SCORE_RAW = false -> String.eqb sf SCORE_SCALED = false ->
  same_row_but_scores a b -> sort_key sf a = sort_key sf b.
Proof.
  intros Hr Hs [Hp _]. unfold sort_key. rewrite Hr, Hs.
  rewrite <- (title_without_scores (r_project a)), <- (created_at_without_scores (r_project a)), Hp.
  rewrite title_without_scores, created_at_without_scores. reflexivity.
Qed.

Lemma order_rows_same (ents1 ents2 : gmap Z Entry) sf d r1 r2 :
  String.eqb sf SCORE_RAW = false -> String.eqb sf SCORE_SCALED = false ->
  Forall (fun r => r_entry r = ents1 !! p_id (r_project r)) r1 ->
  Forall (fun r => r_entry r = ents2 !! p_id (r_project r)) r2 ->
  Forall2 same_row_but_scores r1 r2 ->
  Forall2 same_row_but_scores (order_rows sf d r1) (order_rows sf d r2).
Proof.
  intros Hr Hs Hf1 Hf2 H12.
  rewrite (order_rows_split ents1 sf d r1 Hf1), (order_rows_split ents2 sf d r2 Hf2).
  apply Forall2_app.
  - apply sort_by_Forall2.
    + intros a a' b b' Hab Hab'. unfold key_ltb. by rewrite (manual_rank_same a b Hab),
        (manual_rank_same a' b' Hab').
    + apply filter_Forall2; [apply is_manual_same|exact H12].
  - apply sort_by_Forall2.
    + intros a a' b b' Hab Hab'.
      by rewrite (sort_key_same sf a b Hr Hs Hab), (sort_key_same sf a' b' Hr Hs Hab').
    + apply filter_Forall2; [|exact H12]. intros a b Hab. by rewrite (is_manual_same a b Hab).
Qed.

Lemma apply_limit_same lim r1 r2 :
  Forall2 same_row_but_scores r1 r2 ->
  Forall2 same_row_but_scores (apply_limit lim r1) (apply_limit lim r2).
Proof.
  intros H. destruct lim as [n|]; simpl; [|exact H].
  destruct (Nat.eqb n 0); [exact H|]. by apply firstn_Forall2.
Qed.

Lemma enumerate_same i r1 r2 :
  Forall2 same_row_but_scores r1 r2 ->
  map (fun x => (rank x, p_id (r_project (rr_row x)))) (enumerate_from i r1) =
  map (fun x => (rank x, p_id (r_project (rr_row x)))) (enumerate_from i r2).
Proof.
  intros H. revert i. induction H as [|a b r1 r2 [Hp _] H IH]; intros i; simpl; [done|].
  rewrite IH. f_equal. f_equal.
  by rewrite <- (p_id_without_scores (r_project a)), Hp, p_id_without_scores.
Qed.

Lemma effective_sort_field_hidden sf :
  String.eqb (effective_sort_field false sf) SCORE_RAW = false /\
  String.eqb (effective_sort_field false sf) SCORE_SCALED = false.
Proof.
  unfold effective_sort_field. simpl.
  destruct (String.eqb sf SCORE_RAW) eqn:Hr; [done|].
  destruct (String.eqb sf SCORE_SCALED) eqn:Hs; done.
Qed.

Lemma alphabetical_instead_of_scores_keys l :
  slug (alphabetical_instead_of_scores l) = slug l /\
  audience (alphabetical_instead_of_scores l) = audience l /\
  is_default (alphabetical_instead_of_scores l) = is_default l.
Proof. unfold alphabetical_instead_of_scores. by destruct (_ || _). Qed.

Lemma alphabetical_instead_of_scores_sel sel :
  let sel' := option_map alphabetical_instead_of_scores sel in
  sel_limit sel' = sel_limit sel /\ sel_filter_config sel' = sel_filter_config sel /\
  sel_entries sel' = sel_entries sel /\ sel_sort_desc sel' = sel_sort_desc sel /\
  effective_sort_field false (sel_sort_field sel') = effective_sort_field false (sel_sort_field sel).
Proof.
  destruct sel as [l|]; simpl; [|done]. unfold alphabetical_instead_of_scores.
  destruct (String.eqb (sort_field l) SCORE_RAW) eqn:Hr;
    [|destruct (String.eqb (sort_field l) SCORE_SCALED) eqn:Hs]; simpl;
    try done; unfold effective_sort_field; simpl; rewrite ?Hr, ?Hs; done.
Qed.

(** ** C2 *)

(** C2: for a viewer whose effective role may not see scores, a list
    sorted by raw or scaled score is ranked exactly as if it were sorted
    alphabetically; so two runs that differ only in the score records
    (and in the rounding of their averages) show the same rows in the
    same order. *)
Theorem score_order_hidden dr u lists ps param :
  can_see_scores (_effective_role u) = false ->
  shown_rows (project_list dr u lists ps param) =
    shown_rows (project_list dr u (map alphabetical_instead_of_scores lists) ps param) /\
  (forall dr' ps', map without_scores ps' = map without_scores ps ->
    row_order (project_list dr' u lists ps' param) = row_order (project_list dr u lists ps param)).
Proof.
  intros Hshow. split.
  - unfold project_list. rewrite Hshow.
    destruct (negb _); [done|].
    rewrite (available_lists_map _ alphabetical_instead_of_scores_keys).
    rewrite (select_list_map _ alphabetical_instead_of_scores_keys).
    destruct (select_list _ _ _) as [e|sel]; [done|].
    destruct (alphabetical_instead_of_scores_sel sel) as (Hl & Hfc & He & Hd & Hsf).
    unfold listing_rows. rewrite Hl, Hfc, He, Hd, Hsf.
    rewrite (build_rows_sel dr (option_map alphabetical_instead_of_scores sel) sel)
      by (destruct sel; simpl; split; intros; done).
    destruct (build_rows dr sel _ _ _ ps); [|done].
    by destruct (_describe_filters _).
  - intros dr' ps' Hps. unfold project_list. rewrite Hshow.
    destruct (negb _); [done|].
    destruct (select_list _ _ _) as [e|sel]; [done|].
    destruct (effective_sort_field_hidden (sel_sort_field sel)) as [Hr Hs].
    pose proof (build_rows_without_scores dr' dr sel (sel_filter_config sel)
                  (truthy (fc_get (sel_filter_config sel) "whitelist_only"))
                  (sel_entries sel) ps' ps Hps) as Hrows.
    unfold listing_rows.
    destruct (build_rows dr' _ _ _ _ ps') as [r1|] eqn:H1;
      destruct (build_rows dr _ _ _ _ ps) as [r2|] eqn:H2; try done.
    destruct (_describe_filters _); [|done]. simpl. f_equal.
    apply enumerate_same, apply_limit_same.
    apply build_rows_spec in H1 as [Hf1 _]. apply build_rows_spec in H2 as [Hf2 _].
    apply (order_rows_same (sel_entries sel) (sel_entries sel)); try assumption.
    + eapply Forall_impl; [exact Hf1|]. by intros r [? ?].
    + eapply Forall_impl; [exact Hf2|]. by intros r [? ?].
Qed.

Lemma score_order_hidden_witness :
  can_see_scores (_effective_role Sample.ops) = false /\
  shown_rows (project_list Sample.exact Sample.ops [Sample.by_score]
                [Sample.pA; Sample.pB] (Some "by-score")) =
    shown_rows (project_list Sample.exact Sample.ops
                  (map alphabetical_instead_of_scores [Sample.by_score])
                  [Sample.pA; Sample.pB] (Some "by-score")) /\
  (forall dr' ps', map without_scores ps' = map without_scores [Sample.pA; Sample.pB] ->
    row_order (project_list dr' Sample.ops [Sample.by_score] ps' (Some "by-score")) =
    row_order (project_list Sample.exact Sample.ops [Sample.by_score]
                 [Sample.pA; Sample.pB] (Some "by-score"))).
Proof.
  split; [reflexivity|].
  apply (score_order_hidden Sample.exact Sample.ops [Sample.by_score]
           [Sample.pA; Sample.pB] (Some "by-score")).
  reflexivity.
Defined.

(** ** C3 *)

(** C3: under a score-based sort field, a row with no data on the sorted
    axis (in particular a project without score records) gets the key -1.
    A row with average [q] on that axis sorts strictly above it exactly
    when [q] is above -1 and not zero: [summary.get(...) or Decimal("-1")]
    also turns a real average of 0 into -1, so a project scored 0 ties
    with the unscored ones; an average of -1 or below does not sort above
    them either. *)
Theorem unscored_sort_key dr sf axis r1 r2 q :
  (sf = SCORE_RAW /\ axis = avg_raw) \/ (sf = SCORE_SCALED /\ axis = avg_scaled) ->
  summary_get axis (r_score_summary r1) = None ->
  summary_get axis (r_score_summary r2) = Some q ->
  (forall p, score_records p = [] -> row_summary dr p = None) /\
  sort_key sf r1 = KDec (-1)%Q /\
  (key_lt (sort_key sf r1) (sort_key sf r2) = true <-> ((-1 < q)%Q /\ ~ (q == 0)%Q)) /\
  ((q == 0)%Q -> sort_key sf r2 = sort_key sf r1).
Proof.
  intros Hsf H1 H2.
  assert (Hk : forall r, sort_key sf r = score_key (summary_get axis (r_score_summary r))).
  { intros r. destruct Hsf as [[-> ->]|[-> ->]]; reflexivity. }
  rewrite !Hk, H1, H2. cbn [score_key].
  split; [|split; [reflexivity|]].
  - intros p Hp. unfold row_summary. by rewrite Hp.
  - destruct (Qeq_bool q 0) eqn:E.
    + apply Qeq_bool_eq in E. split.
      * split; [intros Hc; vm_compute in Hc; discriminate|intros [_ Hn]; contradiction].
      * intros. reflexivity.
    + apply Qeq_bool_neq in E. split.
      * cbn [key_lt]. split.
        -- intros Hlt. split; [|exact E].
           apply Qnot_le_lt. intros Hle. apply Qle_bool_iff in Hle.
           rewrite Hle in Hlt. discriminate.
        -- intros [Hlt _]. apply negb_true_iff, not_true_is_false. intros Hle.
           apply Qle_bool_imp_le in Hle. apply (Qlt_not_le _ _ Hlt Hle).
      * intros Hq. contradiction.
Qed.

Lemma unscored_sort_key_witness :
  ((SCORE_RAW = SCORE_RAW /\ avg_raw = avg_raw) \/
   (SCORE_RAW = SCORE_SCALED /\ avg_raw = avg_scaled)) /\
  summary_get avg_raw (r_score_summary (mkRow Sample.p_unscored None [] None)) = None /\
  summary_get avg_raw (r_score_summary
    (mkRow Sample.p_zero None [] (row_summary Sample.exact Sample.p_zero))) = Some (0 # 100)%Q /\
  (forall p, score_records p = [] -> row_summary Sample.exact p = None) /\
  sort_key SCORE_RAW (mkRow Sample.p_unscored None [] None) = KDec (-1)%Q /\
  (key_lt (sort_key SCORE_RAW (mkRow Sample.p_unscored None [] None))
          (sort_key SCORE_RAW (mkRow Sample.p_zero None []
                                 (row_summary Sample.exact Sample.p_zero))) = true <->
   ((-1 < 0 # 100)%Q /\ ~ (0 # 100 == 0)%Q)) /\
  ((0 # 100 == 0)%Q ->
   sort_key SCORE_RAW (mkRow Sample.p_zero None [] (row_summary Sample.exact Sample.p_zero)) =
   sort_key SCORE_RAW (mkRow Sample.p_unscored None [] None)).
Proof.
  split; [left; split; reflexivity|]. split; [reflexivity|]. split; [reflexivity|].
  apply (unscored_sort_key Sample.exact SCORE_RAW avg_raw
           (mkRow Sample.p_unscored None [] None)
           (mkRow Sample.p_zero None [] (row_summary Sample.exact Sample.p_zero)) (0 # 100)%Q).
  - left; split; reflexivity.
  - reflexivity.
  - reflexivity.
Defined.

(** C3 does not hold of the code: a project scored 0.00 gets the same key
    -1 as an unscored one, so with a descending score sort the unscored
    project, earlier in the catalog, is ranked above it; and a project
    whose average is -5.00 sorts below the unscored key. *)
Lemma unscored_sort_key_counterexample :
  row_order (project_list Sample.exact Sample.admin [Sample.by_score]
               [Sample.p_unscored; Sample.p_zero] (Some "by-score")) =
    inr [(1, 4%Z); (2, 5%Z)] /\
  (exists q, summary_get avg_raw (row_summary Sample.exact Sample.p_zero) = Some q /\
             (q == 0)%Q) /\
  key_lt (sort_key SCORE_RAW (mkRow Sample.p_unscored None [] None))
         (sort_key SCORE_RAW (mkRow Sample.p_zero None []
                                (row_summary Sample.exact Sample.p_zero))) = false /\
  key_lt (sort_key SCORE_RAW (mkRow Sample.p_negative None []
                                (row_summary Sample.exact Sample.p_negative)))
         (sort_key SCORE_RAW (mkRow Sample.p_unscored None [] None)) = true.
Proof.
  split; [vm_compute; reflexivity|].
  split; [eexists; split; reflexivity|].
  split; vm_compute; reflexivity.
Qed.

(** ** C4 *)

Lemma fc_get_insert_ne (fc : gmap string json) k k' v :
  k <> k' -> fc_get (<[k := v]> fc) k' = fc_get fc k'.
Proof. intros H. unfold fc_get. by rewrite lookup_insert_ne. Qed.

Lemma fc_get_insert_eq (fc : gmap string json) k v : fc_get (<[k := v]> fc) k = v.
Proof. unfold fc_get. by rewrite lookup_insert_eq. Qed.

Lemma iter_or_empty_list l : iter_or_empty (JList l) = Some l.
Proof. by destruct l. Qed.

Lemma fc_get_nonempty (fc : gmap string json) k v :
  fc_get fc k = v -> v <> JNull -> Nat.eqb (size fc) 0 = false.
Proof.
  unfold fc_get. intros Hg Hv. apply Nat.eqb_neq.
  destruct (fc !! k) as [w|] eqn:Hk; simpl in Hg; [|congruence].
  apply (map_size_ne_0_lookup_2 _ k). by rewrite Hk.
Qed.

Section UnknownFlag.
Variables (p : Project) (s : string).
Hypothesis Hunknown : assoc_get s PROJECT_FLAG_FIELD_MAP = None.
Hypothesis Hnoattr : project_attr p s = None.

Lemma require_loop_unknown l1 l2 : require_loop p (l1 ++ JStr s :: l2)%list <> Some true.
Proof.
  induction l1 as [|f l1 IH]; cbn [app require_loop].
  - unfold flag_field. rewrite Hunknown. cbn [default].
    unfold getattr_truthy. rewrite Hnoattr. discriminate.
  - destruct (flag_field f); [|discriminate]. by destruct (getattr_truthy p _).
Qed.

Lemma exclude_loop_unknown l1 l2 :
  exclude_loop p (l1 ++ JStr s :: l2)%list = exclude_loop p (l1 ++ l2)%list.
Proof.
  induction l1 as [|f l1 IH]; cbn [app exclude_loop].
  - unfold flag_field at 1. rewrite Hunknown. cbn [default].
    unfold getattr_truthy. by rewrite Hnoattr.
  - destruct (flag_field f); [|done]. by destruct (getattr_truthy p _).
Qed.
End UnknownFlag.

(** C4 (as amended): a flag name outside the alias table raises no error:
    it is used as an attribute name of the project itself.  When the
    project has no attribute of that name it acts as an always-false
    attribute: in [require_flags] the project never matches, in
    [exclude_flags] it imposes no constraint. *)
Theorem unknown_flag_lookup p fc s l1 l2 :
  assoc_get s PROJECT_FLAG_FIELD_MAP = None ->
  flag_field (JStr s) = Some s /\
  (project_attr p s = None ->
   require_loop p (l1 ++ JStr s :: l2)%list <> Some true /\
   exclude_loop p (l1 ++ JStr s :: l2)%list = exclude_loop p (l1 ++ l2)%list /\
   (fc_get fc "require_flags" = JList (l1 ++ JStr s :: l2)%list ->
      _project_matches_filter p fc <> Some true) /\
   _project_matches_filter p (<["exclude_flags" := JList (l1 ++ JStr s :: l2)%list]> fc) =
     _project_matches_filter p (<["exclude_flags" := JList (l1 ++ l2)%list]> fc)).
Proof.
  intros Hunknown. split; [unfold flag_field; by rewrite Hunknown|].
  intros Hnoattr. split; [|split; [|split]].
  - by apply require_loop_unknown.
  - by apply exclude_loop_unknown.
  - intros Hreq. unfold _project_matches_filter.
    rewrite (fc_get_nonempty fc "require_flags" _ Hreq) by discriminate.
    destruct (check_main p _) as [[]|]; try discriminate.
    destruct (check_eligible p _) as [[]|]; try discriminate.
    rewrite Hreq, iter_or_empty_list.
    pose proof (require_loop_unknown p s Hunknown Hnoattr l1 l2) as Hne.
    destruct (require_loop p _) as [[]|]; try discriminate. done.
  - unfold _project_matches_filter, main_categories_of.
    rewrite !(fc_get_nonempty _ "exclude_flags" _ (fc_get_insert_eq _ _ _)) by discriminate.
    rewrite !fc_get_insert_eq, !iter_or_empty_list.
    rewrite !(fc_get_insert_ne fc "exclude_flags") by discriminate.
    destruct (check_main p _) as [[]|]; try done.
    destruct (check_eligible p _) as [[]|]; try done.
    destruct (iter_or_empty _) as [rf|]; [|done].
    destruct (require_loop p rf) as [[]|]; try done.
    by apply exclude_loop_unknown.
Qed.

Lemma unknown_flag_lookup_witness :
  assoc_get "color" PROJECT_FLAG_FIELD_MAP = None /\
  flag_field (JStr "color") = Some "color" /\
  (project_attr Sample.pB "color" = None ->
   require_loop Sample.pB ([JStr "is_web"] ++ JStr "color" :: [])%list <> Some true /\
   exclude_loop Sample.pB ([JStr "is_web"] ++ JStr "color" :: [])%list =
     exclude_loop Sample.pB ([JStr "is_web"] ++ [])%list /\
   (fc_get ∅ "require_flags" = JList ([JStr "is_web"] ++ JStr "color" :: [])%list ->
      _project_matches_filter Sample.pB ∅ <> Some true) /\
   _project_matches_filter Sample.pB
     (<["exclude_flags" := JList ([JStr "is_web"] ++ JStr "color" :: [])%list]> ∅) =
   _project_matches_filter Sample.pB
     (<["exclude_flags" := JList ([JStr "is_web"] ++ [])%list]> ∅)).
Proof.
  split; [reflexivity|].
  apply (unknown_flag_lookup Sample.pB ∅ "color" [JStr "is_web"] []).
  reflexivity.
Defined.

(** C4 fails as stated: ["title"] is not in the alias table, yet as a
    required flag it lets a project with a title match, and as an
    excluded flag it rejects that project. *)
Lemma unknown_flag_counterexample :
  assoc_get "title" PROJECT_FLAG_FIELD_MAP = None /\
  _project_matches_filter Sample.pB (<["require_flags" := JList [JStr "title"]]> ∅) =
    Some true /\
  _project_matches_filter Sample.pB (<["exclude_flags" := JList [JStr "title"]]> ∅) =
    Some false.
Proof. split; [|split]; vm_compute; reflexivity. Qed.

(** ** C5 *)

Lemma apply_limit_app lim (l1 l2 : list Row) :
  exists n m, apply_limit lim (l1 ++ l2)%list = (firstn n l1 ++ firstn m l2)%list.
Proof.
  destruct lim as [n|]; simpl; [destruct (Nat.eqb n 0)|].
  - exists (length l1), (length l2). by rewrite !firstn_all.
  - exists n, (n - length l1). apply List.firstn_app.
  - exists (length l1), (length l2). by rewrite !firstn_all.
Qed.

Lemma sublist_map {A B} (f : A -> B) (l1 l2 : list A) :
  l1 `sublist_of` l2 -> map f l1 `sublist_of` map f l2.
Proof.
  induction 1; simpl; [constructor | by apply sublist_skip | by apply sublist_cons].
Qed.

Lemma Forall_filter_true {A} (f : A -> bool) l : Forall (fun x => f x = true) (List.filter f l).
Proof. apply List.Forall_forall. intros x Hx. by apply filter_In in Hx as [_ ?]. Qed.

Lemma Forall_firstn_perm {A} (P : A -> Prop) n l l' :
  l ≡ₚ l' -> Forall P l' -> Forall P (firstn n l).
Proof.
  intros Hp Hf. apply Forall_take. rewrite List.Forall_forall in Hf |- *.
  intros x Hx. apply Hf. by apply (Permutation_in _ Hp).
Qed.

(** C5: the displayed rows are the manual rows followed by the others,
    whatever the sort direction; the manual rows are in ascending
    [manual_rank], and rows of one rank appear in the order of the
    project catalog. *)
Theorem manual_rows_first dr u lists ps param res :
  project_list dr u lists ps param = inr res ->
  exists M A,
    map rr_row (project_rows res) = (M ++ A)%list /\
    Forall (fun r => is_manual r = true) M /\
    Forall (fun r => is_manual r = false) A /\
    Sorted (key_le manual_rank_of) M /\
    forall k, map r_project (List.filter (key_is manual_rank_of k) M) `sublist_of` ps.
Proof.
  intros Hrun. destruct (project_list_inv dr u lists ps param res Hrun) as [rows [Hr [_ Hpr]]].
  destruct (listing_rows_spec dr _ ps rows Hr) as [Hf Hs].
  rewrite Hpr, enumerate_rows, (order_rows_split _ _ _ _ Hf).
  destruct (apply_limit_app (lr_limit res)
              (sort_by (key_ltb manual_rank_of) (List.filter is_manual rows))
              (py_sort (sort_key (effective_sort_field (show_scores res)
                                    (sel_sort_field (selected_list res))))
                 key_lt (sel_sort_desc (selected_list res))
                 (List.filter (fun r => negb (is_manual r)) rows)))
    as [n [m ->]].
  eexists _, _. split; [reflexivity|]. split; [|split; [|split]].
  - eapply Forall_firstn_perm; [apply sort_by_perm | apply Forall_filter_true].
  - eapply Forall_firstn_perm; [unfold py_sort; apply sort_by_perm|].
    eapply Forall_impl; [apply Forall_filter_true|]. intros r Hr'. by apply negb_true_iff.
  - apply sorted_firstn, sort_by_sorted.
  - intros k. transitivity (map r_project rows); [|exact Hs].
    apply sublist_map. transitivity (List.filter (key_is manual_rank_of k)
      (sort_by (key_ltb manual_rank_of) (List.filter is_manual rows))).
    + apply filter_firstn_sublist.
    + rewrite filter_key_sort. etransitivity; apply filter_sublist.
Qed.

Lemma manual_rows_first_witness :
  exists res,
    project_list Sample.exact Sample.admin [Sample.focus]
      [Sample.pA; Sample.pB; Sample.pC] (Some "sustainability-focus") = inr res /\
    exists M A,
      map rr_row (project_rows res) = (M ++ A)%list /\
      Forall (fun r => is_manual r = true) M /\
      Forall (fun r => is_manual r = false) A /\
      Sorted (key_le manual_rank_of) M /\
      forall k, map r_project (List.filter (key_is manual_rank_of k) M) `sublist_of`
                [Sample.pA; Sample.pB; Sample.pC].
Proof.
  eexists. split; [reflexivity|].
  apply (manual_rows_first Sample.exact Sample.admin [Sample.focus]
           [Sample.pA; Sample.pB; Sample.pC] (Some "sustainability-focus")).
  reflexivity.
Defined.

(** ** C6 *)

Lemma order_rows_length dr sel ps rows sf d :
  listing_rows dr sel ps = Some rows -> length (order_rows sf d rows) = length rows.
Proof.
  intros Hr. destruct (listing_rows_spec dr sel ps rows Hr) as [Hf _].
  apply Permutation_length. by eapply order_rows_perm.
Qed.

(** C6 (as amended): the ranks are exactly [1, 2, ..., N] where N is the
    number of included projects, cut to the limit only when the limit is
    set and non-zero; a stored limit of 0 leaves N at the full count. *)
Theorem ranks_consecutive dr u lists ps param res :
  project_list dr u lists ps param = inr res ->
  exists rows,
    listing_rows dr (selected_list res) ps = Some rows /\
    map rank (project_rows res) =
      seq 1 (match lr_limit res with
             | Some n => if Nat.eqb n 0 then length rows else Nat.min n (length rows)
             | None => length rows
             end).
Proof.
  intros Hrun. destruct (project_list_inv dr u lists ps param res Hrun) as [rows [Hr [_ Hpr]]].
  exists rows. split; [exact Hr|]. rewrite Hpr, enumerate_ranks. f_equal.
  destruct (lr_limit res) as [n|]; simpl; [destruct (Nat.eqb n 0)|].
  - by eapply order_rows_length.
  - rewrite List.length_firstn. f_equal. by eapply order_rows_length.
  - by eapply order_rows_length.
Qed.

Lemma ranks_consecutive_witness :
  exists res,
    project_list Sample.exact Sample.admin [Sample.focus]
      [Sample.pA; Sample.pB; Sample.pC] (Some "sustainability-focus") = inr res /\
    exists rows,
      listing_rows Sample.exact (selected_list res) [Sample.pA; Sample.pB; Sample.pC] = Some rows /\
      map rank (project_rows res) =
        seq 1 (match lr_limit res with
               | Some n => if Nat.eqb n 0 then length rows else Nat.min n (length rows)
               | None => length rows
               end).
Proof.
  eexists. split; [reflexivity|].
  apply (ranks_consecutive Sample.exact Sample.admin [Sample.focus]
           [Sample.pA; Sample.pB; Sample.pC] (Some "sustainability-focus")).
  reflexivity.
Defined.

(** C6 fails as stated: a list whose stored limit is 0 includes two
    projects and shows both, ranked 1 and 2, not [min(2, 0) = 0] rows. *)
Lemma ranks_limit_zero_counterexample :
  exists res rows,
    project_list Sample.exact Sample.admin [Sample.all_projects]
      [Sample.pA; Sample.pB] (Some "all-projects") = inr res /\
    lr_limit res = Some 0 /\
    listing_rows Sample.exact (selected_list res) [Sample.pA; Sample.pB] = Some rows /\
    length rows = 2 /\
    map rank (project_rows res) = [1; 2].
Proof. do 2 eexists. split; [reflexivity|]. vm_compute. repeat split; reflexivity. Qed.

(** ** C10 *)

(** C10: when the list's limit is null or 0 nothing is cut: the displayed
    rows are the whole ordered sequence of included rows. *)
Theorem zero_limit_untruncated dr u lists ps param res :
  project_list dr u lists ps param = inr res ->
  lr_limit res = None \/ lr_limit res = Some 0 ->
  exists rows,
    listing_rows dr (selected_list res) ps = Some rows /\
    map rr_row (project_rows res) =
      order_rows (effective_sort_field (show_scores res) (sel_sort_field (selected_list res)))
                 (sel_sort_desc (selected_list res)) rows /\
    map rr_row (project_rows res) ≡ₚ rows.
Proof.
  intros Hrun Hlim. destruct (project_list_inv dr u lists ps param res Hrun) as [rows [Hr [_ Hpr]]].
  destruct (listing_rows_spec dr _ ps rows Hr) as [Hf _].
  assert (map rr_row (project_rows res) =
          order_rows (effective_sort_field (show_scores res) (sel_sort_field (selected_list res)))
                     (sel_sort_desc (selected_list res)) rows) as Heq.
  { rewrite Hpr, enumerate_rows. by destruct Hlim as [-> | ->]. }
  exists rows. split; [exact Hr|]. split; [exact Heq|].
  rewrite Heq. by eapply order_rows_perm.
Qed.

Lemma zero_limit_untruncated_witness :
  exists res,
    project_list Sample.exact Sample.admin [Sample.all_projects]
      [Sample.pA; Sample.pB] (Some "all-projects") = inr res /\
    exists rows,
      listing_rows Sample.exact (selected_list res) [Sample.pA; Sample.pB] = Some rows /\
      map rr_row (project_rows res) =
        order_rows (effective_sort_field (show_scores res) (sel_sort_field (selected_list res)))
                   (sel_sort_desc (selected_list res)) rows /\
      map rr_row (project_rows res) ≡ₚ rows.
Proof.
  eexists. split; [reflexivity|].
  apply (zero_limit_untruncated Sample.exact Sample.admin [Sample.all_projects]
           [Sample.pA; Sample.pB] (Some "all-projects")); [reflexivity|].
  right. reflexivity.
Defined.

(** ** C8 *)

Lemma find_none_all {A} (f : A -> bool) l :
  (forall x, In x l -> f x = false) -> List.find f l = None.
Proof.
  induction l as [|x l IH]; intros H; simpl; [done|].
  rewrite (H x (or_introl eq_refl)). apply IH. intros y Hy. apply H. by right.
Qed.

(** C8 (as amended): the slug is first stripped of surrounding
    whitespace.  When the stripped slug is non-empty and no list visible
    to the viewer has it, the run fails with no result: [Http404] for a
    viewer whose role may see listings, [PermissionDenied] for any other.
    A slug made only of whitespace behaves as no slug at all: the run is
    the one without a [list] parameter, and the list it shows is a
    default list (the first for the viewer's role, else the first
    default) or, with no default list, the first available list. *)
Theorem unknown_slug_not_found dr u lists ps s :
  (strip s <> "" ->
   (forall l, In l (available_lists (_effective_role u) lists) -> slug l <> strip s) ->
   project_list dr u lists ps (Some s) =
     inl (if existsb (String.eqb (_effective_role u)) [ROLE_ADMIN; ROLE_JUDGE; ROLE_HACKTJ]
          then Http404 else PermissionDenied)) /\
  (strip s = "" ->
   project_list dr u lists ps (Some s) = project_list dr u lists ps None /\
   forall res, project_list dr u lists ps (Some s) = inr res ->
     selected_list res =
       match List.filter is_default (available_lists (_effective_role u) lists) with
       | [] => head (available_lists (_effective_role u) lists)
       | d :: ds =>
           match List.find (fun l => String.eqb (audience l) (_effective_role u)) (d :: ds) with
           | Some l => Some l
           | None => Some d
           end
       end).
Proof.
  split.
  - intros Hne Hnone. unfold project_list.
    destruct (existsb _ _); cbn [negb]; [|reflexivity].
    unfold select_list. change (default "" (Some s)) with s.
    rewrite find_none_all.
    + destruct (String.eqb_spec (strip s) ""); [contradiction|]. reflexivity.
    + intros l Hl. apply String.eqb_neq. by apply Hnone.
  - intros Hb. split.
    + unfold project_list. change (default "" (Some s)) with s. rewrite Hb. reflexivity.
    + intros res H. unfold project_list in H.
      destruct (existsb _ _); cbn [negb] in H; [|discriminate].
      change (default "" (Some s)) with s in H. rewrite Hb in H.
      unfold select_list in H. cbn [String.eqb negb] in H.
      destruct (List.filter is_default _) as [|d ds];
        [|destruct (List.find _ (d :: ds)) as [l|]];
        (destruct (listing_rows _ _); [|discriminate]);
        (destruct (_describe_filters _); [|discriminate]);
        injection H as <-; reflexivity.
Qed.

Lemma unknown_slug_not_found_witness :
  project_list Sample.exact Sample.admin [Sample.focus; Sample.by_score]
    [Sample.pA; Sample.pB] (Some " no-such-list ") = inl Http404 /\
  project_list Sample.exact Sample.admin [Sample.focus]
    [Sample.pA; Sample.pB] (Some "  ") =
  project_list Sample.exact Sample.admin [Sample.focus] [Sample.pA; Sample.pB] None.
Proof.
  split.
  - apply (proj1 (unknown_slug_not_found Sample.exact Sample.admin [Sample.focus; Sample.by_score]
                    [Sample.pA; Sample.pB] " no-such-list ")).
    + vm_compute. discriminate.
    + intros l Hl. simpl in Hl.
      destruct Hl as [<- | [<- | []]]; vm_compute; discriminate.
  - apply (proj2 (unknown_slug_not_found Sample.exact Sample.admin [Sample.focus]
                    [Sample.pA; Sample.pB] "  ")).
    reflexivity.
Defined.

(** C8 fails as stated: a requested slug made only of blanks is non-empty
    and no list carries it, yet the run succeeds, silently on the admin's
    default list. *)
Lemma blank_slug_counterexample :
  exists res,
    project_list Sample.exact Sample.admin [Sample.focus]
      [Sample.pA; Sample.pB] (Some "  ") = inr res /\
    "  " <> "" /\ slug Sample.focus <> "  " /\
    selected_list res = Some Sample.focus.
Proof.
  eexists. split; [reflexivity|]. split; [discriminate|]. split; [discriminate|reflexivity].
Qed.

(** ** C9 *)

Lemma size_nonzero_lookup (fc : gmap string json) k v :
  fc !! k = Some v -> Nat.eqb (size fc) 0 = false.
Proof.
  intros Hk. apply Nat.eqb_neq. apply (map_size_ne_0_lookup_2 _ k). by rewrite Hk.
Qed.

Lemma py_or_same v : py_or v v = v.
Proof. unfold py_or. by destruct (truthy v). Qed.

(** C9: with ["main_categories"] absent, null or empty, the value under
    ["categories"] is the main-category constraint: matching and the
    filter descriptions are those of the configuration with that value
    stored under ["main_categories"]. *)
Theorem categories_alias p fc c :
  fc !! "categories" = Some c ->
  truthy (fc_get fc "main_categories") = false ->
  main_categories_of fc = c /\
  _project_matches_filter p fc = _project_matches_filter p (<["main_categories" := c]> fc) /\
  _describe_filters fc = _describe_filters (<["main_categories" := c]> fc).
Proof.
  intros Hc Hm.
  assert (main_categories_of fc = c) as H1.
  { unfold main_categories_of, py_or. rewrite Hm. unfold fc_get. by rewrite Hc. }
  assert (main_categories_of (<["main_categories" := c]> fc) = c) as H2.
  { unfold main_categories_of. rewrite fc_get_insert_eq.
    rewrite fc_get_insert_ne by discriminate.
    replace (fc_get fc "categories") with c by (unfold fc_get; by rewrite Hc).
    apply py_or_same. }
  assert (Nat.eqb (size fc) 0 = false) as S1 by (eapply size_nonzero_lookup; exact Hc).
  assert (Nat.eqb (size (<["main_categories" := c]> fc)) 0 = false) as S2
    by (eapply size_nonzero_lookup; apply lookup_insert_eq).
  split; [exact H1|]. split.
  - unfold _project_matches_filter. rewrite S1, S2, H1, H2.
    rewrite !(fc_get_insert_ne fc "main_categories") by discriminate. reflexivity.
  - unfold _describe_filters. rewrite S1, S2, H1, H2.
    rewrite !(fc_get_insert_ne fc "main_categories") by discriminate. reflexivity.
Qed.

Lemma categories_alias_witness :
  main_categories_of (<["categories" := JList [JStr "sustainability"]]> ∅) =
    JList [JStr "sustainability"] /\
  _project_matches_filter Sample.pA (<["categories" := JList [JStr "sustainability"]]> ∅) =
    _project_matches_filter Sample.pA
      (<["main_categories" := JList [JStr "sustainability"]]>
         (<["categories" := JList [JStr "sustainability"]]> ∅)) /\
  _describe_filters (<["categories" := JList [JStr "sustainability"]]> ∅) =
    _describe_filters
      (<["main_categories" := JList [JStr "sustainability"]]>
         (<["categories" := JList [JStr "sustainability"]]> ∅)).
Proof.
  apply (categories_alias Sample.pA (<["categories" := JList [JStr "sustainability"]]> ∅)
           (JList [JStr "sustainability"])); reflexivity.
Defined.

(** ** C7 *)

Lemma list_max_spec v vs :
  In (list_max v vs) (v :: vs) /\ forall x, In x (v :: vs) -> (x <= list_max v vs)%Z.
Proof.
  unfold list_max. revert v. induction vs as [|w vs IH]; intros v; simpl.
  - split; [by left|]. intros x [<- | []]. lia.
  - destruct (IH (Z.max v w)) as [Hin Hge]. split.
    + destruct Hin as [Hin | Hin]; [|by right; right].
      rewrite <- Hin. destruct (Z.max_spec v w) as [[_ ->] | [_ ->]]; [by right; left | by left].
    + intros x [<- | [<- | Hx]].
      * specialize (Hge (Z.max v w) (or_introl eq_refl)). lia.
      * specialize (Hge (Z.max v w) (or_introl eq_refl)). lia.
      * by apply Hge; right.
Qed.

Lemma list_min_spec v vs :
  In (list_min v vs) (v :: vs) /\ forall x, In x (v :: vs) -> (list_min v vs <= x)%Z.
Proof.
  unfold list_min. revert v. induction vs as [|w vs IH]; intros v; simpl.
  - split; [by left|]. intros x [<- | []]. lia.
  - destruct (IH (Z.min v w)) as [Hin Hle]. split.
    + destruct Hin as [Hin | Hin]; [|by right; right].
      rewrite <- Hin. destruct (Z.min_spec v w) as [[_ ->] | [_ ->]]; [by left | by right; left].
    + intros x [<- | [<- | Hx]].
      * specialize (Hle (Z.min v w) (or_introl eq_refl)). lia.
      * specialize (Hle (Z.min v w) (or_introl eq_refl)). lia.
      * by apply Hle; right.
Qed.

Lemma sum_bounds (m M : Z) vs acc :
  (forall x, In x vs -> m <= x <= M)%Z ->
  (m * Z.of_nat (length vs) <= fold_left Z.add vs acc - acc <= M * Z.of_nat (length vs))%Z.
Proof.
  revert acc. induction vs as [|x vs IH]; intros acc H; simpl; [lia|].
  rewrite Nat2Z.inj_succ.
  destruct (IH (acc + x)%Z) as [H1 H2]; [intros y Hy; apply H; by right|].
  pose proof (H x (or_introl eq_refl)). lia.
Qed.

Lemma cents_le z1 z2 : (z1 <= z2)%Z -> (cents z1 <= cents z2)%Q.
Proof. intros H. unfold cents, Qle; simpl. lia. Qed.

Lemma cents_mean_lower (m S : Z) (n : nat) :
  (0 < n)%nat -> (m * Z.of_nat n <= S)%Z -> (cents m <= cents S / inject_Z (Z.of_nat n))%Q.
Proof.
  intros Hn H. apply Qle_shift_div_l; [unfold Qlt; simpl; lia|].
  unfold cents, Qle, Qmult; simpl. lia.
Qed.

Lemma cents_mean_upper (M S : Z) (n : nat) :
  (0 < n)%nat -> (S <= M * Z.of_nat n)%Z -> (cents S / inject_Z (Z.of_nat n) <= cents M)%Q.
Proof.
  intros Hn H. apply Qle_shift_div_r; [unfold Qlt; simpl; lia|].
  unfold cents, Qle, Qmult; simpl. lia.
Qed.

Lemma Forall_omap {A B} (f : A -> option B) (P : B -> Prop) l :
  Forall (fun x => match f x with Some y => P y | None => True end) l -> Forall P (omap f l).
Proof.
  induction 1 as [|x l Hx _ IH]; simpl; [constructor|].
  destruct (f x); [by constructor|exact IH].
Qed.

Section SummaryAxis.
Variable dr : Q -> Q.
Hypothesis dr_mono : forall x y, (x <= y)%Q -> (dr x <= dr y)%Q.
Hypothesis dr_exact : forall z, field_range z -> (dr (cents z) == cents z)%Q.

Lemma axis_summary vs :
  Forall field_range vs -> axis_summary_ok dr vs (avg_of dr vs) (max_of vs) (min_of vs).
Proof.
  intros Hr. destruct vs as [|v vs']; simpl; [done|].
  destruct (list_max_spec v vs') as [HMin HMge].
  destruct (list_min_spec v vs') as [Hmin Hmle].
  rewrite List.Forall_forall in Hr.
  exists (dec_avg dr (v :: vs')), (cents (list_min v vs')), (cents (list_max v vs')).
  do 4 (split; [reflexivity|]).
  split; [by exists (list_max v vs')|]. split; [intros x Hx; by apply cents_le, HMge|].
  split; [by exists (list_min v vs')|]. split; [intros x Hx; by apply cents_le, Hmle|].
  destruct (sum_bounds (list_min v vs') (list_max v vs') (v :: vs') 0%Z) as [Hlo Hhi].
  { intros x Hx. split; [by apply Hmle | by apply HMge]. }
  rewrite Z.sub_0_r in Hlo, Hhi.
  unfold dec_avg. split.
  - apply Qle_trans with (dr (cents (list_min v vs'))).
    + rewrite dr_exact by (apply Hr; exact Hmin). apply Qle_refl.
    + apply dr_mono. apply cents_mean_lower; [simpl; lia | exact Hlo].
  - apply Qle_trans with (dr (cents (list_max v vs'))).
    + apply dr_mono. apply cents_mean_upper; [simpl; lia | exact Hhi].
    + rewrite dr_exact by (apply Hr; exact HMin). apply Qle_refl.
Qed.
End SummaryAxis.

(** C7: the summary of a project's score records is null exactly when
    there are none.  Otherwise it counts every record, and each axis
    (raw, and scaled with its null values left out) has its statistics
    over that axis's values only, none when the axis has no value, and
    min <= avg <= max.  This holds for any rounding of the quotient that
    is monotone and exact on the two-decimal field values. *)
Theorem score_summary_spec dr records :
  (forall x y, (x <= y)%Q -> (dr x <= dr y)%Q) ->
  (forall z, field_range z -> (dr (cents z) == cents z)%Q) ->
  Forall (fun r => field_range (raw_score r) /\
                   match scaled_score r with Some z => field_range z | None => True end)
         records ->
  (_score_summary_from_records dr records = None <-> records = []) /\
  forall s, _score_summary_from_records dr records = Some s ->
    count s = length records /\
    axis_summary_ok dr (map raw_score records) (avg_raw s) (max_raw s) (min_raw s) /\
    axis_summary_ok dr (omap scaled_score records) (avg_scaled s) (max_scaled s) (min_scaled s).
Proof.
  intros Hmono Hexact Hr. split.
  - destruct records; simpl; split; done.
  - intros s Hs. destruct records as [|r0 rs]; [discriminate|].
    injection Hs as <-.
    split; [reflexivity|]. split; apply axis_summary; try assumption.
    + apply List.Forall_map. eapply Forall_impl; [exact Hr|]. by intros r [? _].
    + apply Forall_omap. eapply Forall_impl; [exact Hr|]. by intros r [_ ?].
Qed.

Lemma score_summary_spec_witness :
  (_score_summary_from_records Sample.exact
      [mkScoreRecord 8200%Z (Some 8850%Z); mkScoreRecord 7000%Z None] = None <->
    [mkScoreRecord 8200%Z (Some 8850%Z); mkScoreRecord 7000%Z None] = []) /\
   forall s, _score_summary_from_records Sample.exact
               [mkScoreRecord 8200%Z (Some 8850%Z); mkScoreRecord 7000%Z None] = Some s ->
     count s = 2 /\
     axis_summary_ok Sample.exact (map raw_score
       [mkScoreRecord 8200%Z (Some 8850%Z); mkScoreRecord 7000%Z None])
       (avg_raw s) (max_raw s) (min_raw s) /\
     axis_summary_ok Sample.exact (omap scaled_score
       [mkScoreRecord 8200%Z (Some 8850%Z); mkScoreRecord 7000%Z None])
       (avg_scaled s) (max_scaled s) (min_scaled s).
Proof.
  apply (score_summary_spec Sample.exact
           [mkScoreRecord 8200%Z (Some 8850%Z); mkScoreRecord 7000%Z None]).
  - intros x y H. exact H.
  - intros z _. apply Qeq_refl.
  - repeat constructor; unfold field_range; simpl; lia.
Defined.

(* ------------------------------------------------------------------ *)
(** * Further properties of the code *)

(** ** The listing *)

Lemma length_enumerate i l : length (enumerate_from i l) = length l.
Proof. revert i. induction l as [|r l IH]; intros i; simpl; [done|]. by rewrite IH. Qed.

Lemma apply_limit_length lim l : length (apply_limit lim l) <= length l.
Proof.
  destruct lim as [n|]; simpl; [|lia].
  destruct (Nat.eqb n 0); [lia|]. rewrite List.length_firstn. lia.
Qed.

(** The fields of a successful run that are read off its inputs. *)
Lemma project_list_fields dr u lists ps param res :
  project_list dr u lists ps param = inr res ->
  existsb (String.eqb (_effective_role u)) [ROLE_ADMIN; ROLE_JUDGE; ROLE_HACKTJ] = true /\
  select_list (_effective_role u) (available_lists (_effective_role u) lists)
    (strip (default "" param)) = inr (selected_list res) /\
  show_scores res = can_see_scores (_effective_role u) /\
  total_projects res = length ps /\
  display_count res = length (project_rows res) /\
  list_slug_out res =
    (if String.eqb (strip (default "" param)) "" then
       match selected_list res with Some l => slug l | None => "" end
     else strip (default "" param)).
Proof.
  unfold project_list. intros H.
  destruct (existsb _ _) eqn:Hr; cbn [negb] in H; [|discriminate].
  destruct (select_list _ _ _) as [e|sel] eqn:Hs; [discriminate|].
  destruct (listing_rows dr sel ps) as [rows|]; [|discriminate].
  destruct (_describe_filters _) as [af|]; [|discriminate].
  injection H as <-. cbn. rewrite length_enumerate. done.
Qed.

Lemma in_available_lists r lists l :
  In l (available_lists r lists) -> In l lists /\ (audience l = "all" \/ audience l = r).
Proof.
  unfold available_lists, _audience_filters. intros Hin.
  apply filter_In in Hin as [Hin Ha]. split; [exact Hin|]. simpl in Ha.
  destruct (String.eqb_spec (audience l) "all"); [by left|].
  destruct (String.eqb_spec (audience l) r); [by right|done].
Qed.

Lemma select_list_some r avail s l :
  select_list r avail s = inr (Some l) -> In l avail /\ (s <> "" -> slug l = s).
Proof.
  unfold select_list. destruct (String.eqb_spec s ""); cbn [negb].
  - intros H. split; [|done].
    destruct (List.filter is_default avail) as [|d ds] eqn:Hd.
    + destruct avail as [|a avail]; simpl in H; [discriminate|]. injection H as ->; by left.
    + assert (forall x, In x (d :: ds) -> In x avail) as Hsub.
      { intros x Hx. rewrite <- Hd in Hx. by apply filter_In in Hx as [? _]. }
      destruct (find _ (d :: ds)) as [f|] eqn:Hf; injection H as ->.
      * apply Hsub. by apply (List.find_some _ _ Hf).
      * apply Hsub. by left.
  - destruct (find _ avail) as [f|] eqn:Hf; [|discriminate]. intros H. injection H as ->.
    apply List.find_some in Hf as [Hin Heq]. split; [exact Hin|].
    intros _. by apply String.eqb_eq.
Qed.

(** A successful run shows a list the viewer's audience may see (its own
    role's lists and the lists for everyone), and reports that list's
    slug, whether the slug was requested or the list was chosen by
    default. *)
Theorem selected_list_visible dr u lists ps param res l :
  project_list dr u lists ps param = inr res ->
  selected_list res = Some l ->
  In l lists /\ (audience l = "all" \/ audience l = _effective_role u) /\
  list_slug_out res = slug l.
Proof.
  intros H Hl. destruct (project_list_fields _ _ _ _ _ _ H) as (_ & Hs & _ & _ & _ & Hslug).
  rewrite Hl in Hs. apply select_list_some in Hs as [Hin Hslug'].
  apply in_available_lists in Hin as [Hin Ha].
  split; [exact Hin|]. split; [exact Ha|]. rewrite Hslug, Hl.
  destruct (String.eqb_spec (strip (default "" param)) ""); [done|].
  symmetry. by apply Hslug'.
Qed.

Lemma selected_list_visible_witness :
  exists res,
    project_list Sample.exact Sample.admin [Sample.focus; Sample.by_score]
      [Sample.pA; Sample.pB] (Some "by-score") = inr res /\
    selected_list res = Some Sample.by_score /\
    In Sample.by_score [Sample.focus; Sample.by_score] /\
    (audience Sample.by_score = "all" \/ audience Sample.by_score = _effective_role Sample.admin) /\
    list_slug_out res = slug Sample.by_score.
Proof.
  eexists. split; [reflexivity|]. split; [reflexivity|].
  apply (selected_list_visible Sample.exact Sample.admin [Sample.focus; Sample.by_score]
           [Sample.pA; Sample.pB] (Some "by-score")); reflexivity.
Defined.

(** The number of projects shown is the number of rows displayed, and it
    never exceeds the number of projects in the catalog. *)
Theorem display_count_bounded dr u lists ps param res :
  project_list dr u lists ps param = inr res ->
  display_count res = length (project_rows res) /\ display_count res <= total_projects res.
Proof.
  intros H. destruct (project_list_fields _ _ _ _ _ _ H) as (_ & _ & _ & Htot & Hdc & _).
  destruct (project_list_inv _ _ _ _ _ _ H) as (rows & Hr & _ & Hpr).
  split; [exact Hdc|]. rewrite Hdc, Htot, Hpr, length_enumerate.
  etransitivity; [apply apply_limit_length|]. erewrite order_rows_length by exact Hr.
  destruct (listing_rows_spec _ _ _ _ Hr) as [_ Hs].
  apply sublist_length in Hs. by rewrite List.length_map in Hs.
Qed.

Lemma display_count_bounded_witness :
  exists res,
    project_list Sample.exact Sample.admin [Sample.focus]
      [Sample.pA; Sample.pB; Sample.pC] (Some "sustainability-focus") = inr res /\
    display_count res = length (project_rows res) /\ display_count res <= total_projects res.
Proof.
  eexists. split; [reflexivity|].
  apply (display_count_bounded Sample.exact Sample.admin [Sample.focus]
           [Sample.pA; Sample.pB; Sample.pC] (Some "sustainability-focus")).
  reflexivity.
Defined.

Lemma filter_all_false {A} (f : A -> bool) l :
  (forall x, In x l -> f x = false) -> List.filter f l = [].
Proof.
  induction l as [|x l IH]; intros H; simpl; [done|].
  rewrite (H x (or_introl eq_refl)). apply IH. intros y Hy. apply H. by right.
Qed.

(** With no list requested (a missing or blank [list] parameter) and a
    default list available to the viewer, the list shown is an available
    default list, and it is one for the viewer's own role whenever such a
    default list is available. *)
Theorem default_list_selected dr u lists ps param res d :
  project_list dr u lists ps param = inr res ->
  strip (default "" param) = "" ->
  In d (available_lists (_effective_role u) lists) -> is_default d = true ->
  exists l,
    selected_list res = Some l /\ In l (available_lists (_effective_role u) lists) /\
    is_default l = true /\
    (audience d = _effective_role u -> audience l = _effective_role u).
Proof.
  intros H Hp Hd Hdd. destruct (project_list_fields _ _ _ _ _ _ H) as (_ & Hs & _).
  rewrite Hp in Hs. unfold select_list in Hs. cbn [String.eqb negb] in Hs.
  assert (In d (List.filter is_default (available_lists (_effective_role u) lists))) as Hdf
    by (apply filter_In; by split).
  assert (forall x, In x (List.filter is_default (available_lists (_effective_role u) lists)) ->
            In x (available_lists (_effective_role u) lists) /\ is_default x = true) as Hsub
    by (intros x Hx; by apply filter_In in Hx).
  revert Hdf Hsub Hs.
  destruct (List.filter is_default _) as [|d0 ds]; [done|]. intros Hdf Hsub Hs.
  destruct (find _ (d0 :: ds)) as [f|] eqn:Hf; injection Hs as <-.
  - apply List.find_some in Hf as [Hin Ha]. exists f.
    destruct (Hsub f Hin) as [Hf1 Hf2]. repeat split; [done|done|].
    intros _. by apply String.eqb_eq.
  - exists d0. destruct (Hsub d0 (or_introl eq_refl)) as [Hf1 Hf2]. repeat split; [done|done|].
    intros Ha. pose proof (List.find_none _ _ Hf d Hdf) as Hn.
    cbn beta in Hn. rewrite Ha, String.eqb_refl in Hn. discriminate.
Qed.

Lemma default_list_selected_witness :
  exists res,
    project_list Sample.exact Sample2.judge [Sample2.default_all; Sample2.default_judge]
      [Sample.pA] None = inr res /\
    exists l,
      selected_list res = Some l /\
      In l (available_lists (_effective_role Sample2.judge)
              [Sample2.default_all; Sample2.default_judge]) /\
      is_default l = true /\
      (audience Sample2.default_judge = _effective_role Sample2.judge ->
       audience l = _effective_role Sample2.judge).
Proof.
  eexists. split; [reflexivity|].
  apply (default_list_selected Sample.exact Sample2.judge
           [Sample2.default_all; Sample2.default_judge] [Sample.pA] None); try reflexivity.
  simpl. right. left. reflexivity.
Defined.

(** With no list requested and no default list available, the list shown
    is the first available list (by title), and no list at all when none
    is available. *)
Theorem no_default_first_list dr u lists ps param res :
  project_list dr u lists ps param = inr res ->
  strip (default "" param) = "" ->
  (forall l, In l (available_lists (_effective_role u) lists) -> is_default l = false) ->
  selected_list res = head (available_lists (_effective_role u) lists).
Proof.
  intros H Hp Hnd. destruct (project_list_fields _ _ _ _ _ _ H) as (_ & Hs & _).
  rewrite Hp in Hs. unfold select_list in Hs. cbn [String.eqb negb] in Hs.
  rewrite (filter_all_false _ _ Hnd) in Hs. by injection Hs.
Qed.

Lemma no_default_first_list_witness :
  exists res,
    project_list Sample.exact Sample.admin [Sample.by_score; Sample.all_projects]
      [Sample.pA] (Some "  ") = inr res /\
    selected_list res = head (available_lists (_effective_role Sample.admin)
                                [Sample.by_score; Sample.all_projects]).
Proof.
  eexists. split; [reflexivity|].
  apply (no_default_first_list Sample.exact Sample.admin
           [Sample.by_score; Sample.all_projects] [Sample.pA] (Some "  ")); [reflexivity|reflexivity|].
  intros l Hl. simpl in Hl. destruct Hl as [<-|[<-|[]]]; reflexivity.
Defined.

(** The entry and include decision of a displayed row. *)
Lemma project_list_row_included dr u lists ps param res l x :
  project_list dr u lists ps param = inr res ->
  selected_list res = Some l ->
  In x (project_rows res) ->
  r_entry (rr_row x) = pl_entries l !! p_id (r_project (rr_row x)) /\
  include_project (Some l) (filter_config l)
    (truthy (fc_get (filter_config l) "whitelist_only"))
    (r_entry (rr_row x)) (r_project (rr_row x)) = Some true.
Proof.
  intros H Hl Hx. destruct (project_list_rows_in _ _ _ _ _ _ _ H Hx) as (rows & Hr & Hin).
  rewrite Hl in Hr. unfold listing_rows in Hr. cbn [sel_filter_config sel_entries] in Hr.
  apply build_rows_spec in Hr as [Hf _]. rewrite List.Forall_forall in Hf. by apply Hf.
Qed.

(** When the shown list has [whitelist_only] set, every displayed project
    has an entry in that list that is whitelisted and not blacklisted. *)
Theorem whitelist_only_rows dr u lists ps param res l x :
  project_list dr u lists ps param = inr res ->
  selected_list res = Some l ->
  truthy (fc_get (filter_config l) "whitelist_only") = true ->
  In x (project_rows res) ->
  exists e, r_entry (rr_row x) = Some e /\
            pl_entries l !! p_id (r_project (rr_row x)) = Some e /\
            is_whitelisted e = true /\ is_blacklisted e = false.
Proof.
  intros H Hl Hwl Hx.
  destruct (project_list_row_included _ _ _ _ _ _ _ _ H Hl Hx) as [He Hinc].
  rewrite Hwl in Hinc. unfold include_project in Hinc.
  destruct (r_entry (rr_row x)) as [e|]; cbn [entry_flag] in Hinc.
  - exists e. destruct (is_blacklisted e); [discriminate|].
    destruct (_project_matches_filter _ _); [|discriminate]. injection Hinc as Hw. done.
  - destruct (_project_matches_filter _ _); discriminate.
Qed.

Lemma whitelist_only_rows_witness :
  exists res x,
    project_list Sample.exact Sample.admin [Sample2.wl_only]
      [Sample.pA; Sample.pB] (Some "picks") = inr res /\
    In x (project_rows res) /\
    exists e, r_entry (rr_row x) = Some e /\
              pl_entries Sample2.wl_only !! p_id (r_project (rr_row x)) = Some e /\
              is_whitelisted e = true /\ is_blacklisted e = false.
Proof.
  do 2 eexists. split; [reflexivity|]. split; [simpl; left; reflexivity|].
  eapply (whitelist_only_rows Sample.exact Sample.admin [Sample2.wl_only]
           [Sample.pA; Sample.pB] (Some "picks") _ Sample2.wl_only); try reflexivity.
  simpl. left. reflexivity.
Defined.

Lemma build_rows_defined dr sel fc wl ents ps rows p :
  build_rows dr sel fc wl ents ps = Some rows -> In p ps ->
  include_project sel fc wl (ents !! p_id p) p <> None.
Proof.
  revert rows. induction ps as [|q ps IH]; intros rows H Hin; [done|]. simpl in H.
  destruct (include_project sel fc wl (ents !! p_id q) q) as [inc|] eqn:Hinc; [|done].
  destruct (build_rows dr sel fc wl ents ps) as [rest|] eqn:Hrest; [|done].
  destruct Hin as [<-|Hin]; [by rewrite Hinc|]. by apply (IH rest).
Qed.

Lemma build_rows_includes dr sel fc wl ents ps rows p :
  build_rows dr sel fc wl ents ps = Some rows -> In p ps ->
  include_project sel fc wl (ents !! p_id p) p = Some true ->
  exists r, In r rows /\ r_project r = p.
Proof.
  revert rows. induction ps as [|q ps IH]; intros rows H Hin Hp; [done|]. simpl in H.
  destruct (include_project sel fc wl (ents !! p_id q) q) as [inc|] eqn:Hinc; [|done].
  destruct (build_rows dr sel fc wl ents ps) as [rest|] eqn:Hrest; [|done].
  injection H as <-. destruct Hin as [<-|Hin].
  - rewrite Hp in Hinc. injection Hinc as <-. eexists. split; [left; reflexivity|done].
  - destruct (IH rest eq_refl Hin Hp) as (r & Hr & Hrp). exists r. split; [|done].
    destruct inc; [by right|done].
Qed.

Lemma enumerate_in_rev i l r : In r l -> exists x, In x (enumerate_from i l) /\ rr_row x = r.
Proof.
  intros Hin. rewrite <- (enumerate_rows i l) in Hin. apply in_map_iff in Hin as (x & <- & Hx).
  by exists x.
Qed.

(** A project of the catalog whose entry in the shown list is whitelisted
    and not blacklisted is displayed whatever the list's filters say,
    when the list has no limit. *)
Theorem whitelisted_shown dr u lists ps param res l p e :
  project_list dr u lists ps param = inr res ->
  selected_list res = Some l -> limit l = None ->
  In p ps -> pl_entries l !! p_id p = Some e ->
  is_whitelisted e = true -> is_blacklisted e = false ->
  exists x, In x (project_rows res) /\ r_project (rr_row x) = p.
Proof.
  intros H Hl Hlim Hin He Hw Hb.
  destruct (project_list_inv _ _ _ _ _ _ H) as (rows & Hr & Hlr & Hpr).
  rewrite Hl in Hlr. cbn [sel_limit] in Hlr. rewrite Hlim in Hlr.
  rewrite Hlr in Hpr. cbn [apply_limit] in Hpr.
  destruct (listing_rows_spec _ _ _ _ Hr) as [Hf _].
  rewrite Hl in Hr. unfold listing_rows in Hr. cbn [sel_filter_config sel_entries] in Hr.
  pose proof (build_rows_defined _ _ _ _ _ _ _ p Hr Hin) as Hdef. rewrite He in Hdef.
  assert (include_project (Some l) (filter_config l)
            (truthy (fc_get (filter_config l) "whitelist_only")) (Some e) p = Some true) as Hinc.
  { revert Hdef. unfold include_project. cbn [entry_flag]. rewrite Hb, Hw.
    destruct (_project_matches_filter _ _); [|done]. intros _.
    by destruct (truthy _). }
  rewrite <- He in Hinc.
  destruct (build_rows_includes _ _ _ _ _ _ _ _ Hr Hin Hinc) as (r & Hrin & Hrp).
  assert (In r (order_rows (effective_sort_field (show_scores res) (sel_sort_field (selected_list res)))
                 (sel_sort_desc (selected_list res)) rows)) as Hro.
  { eapply Permutation_in; [symmetry; eapply order_rows_perm; exact Hf|exact Hrin]. }
  destruct (enumerate_in_rev 1 _ _ Hro) as (x & Hx & Hxr). exists x. rewrite Hpr, <- Hrp, <- Hxr.
  by split.
Qed.

Lemma whitelisted_shown_witness :
  exists res,
    project_list Sample.exact Sample.admin [Sample2.wl_only]
      [Sample.pA; Sample.pB] (Some "picks") = inr res /\
    exists x, In x (project_rows res) /\ r_project (rr_row x) = Sample.pA.
Proof.
  eexists. split; [reflexivity|].
  apply (whitelisted_shown Sample.exact Sample.admin [Sample2.wl_only]
           [Sample.pA; Sample.pB] (Some "picks") _ Sample2.wl_only Sample.pA
           (mkEntry true false None)); try reflexivity.
  simpl. left. reflexivity.
Defined.

Lemma build_rows_no_list dr wl ps :
  build_rows dr None ∅ wl ∅ ps =
  Some (map (fun p => mkRow p None (project_attributes p) (row_summary dr p)) ps).
Proof.
  induction ps as [|p ps IH]; simpl; [done|]. rewrite lookup_empty. simpl. by rewrite IH.
Qed.

(** When no list is shown (the viewer has no list available and asked for
    none), every project of the catalog is displayed exactly once, with no
    entry. *)
Theorem no_list_shows_all dr u lists ps param res :
  project_list dr u lists ps param = inr res ->
  selected_list res = None ->
  map (fun x => r_project (rr_row x)) (project_rows res) ≡ₚ ps /\
  Forall (fun x => r_entry (rr_row x) = None) (project_rows res).
Proof.
  intros H Hl. destruct (project_list_inv _ _ _ _ _ _ H) as (rows & Hr & Hlr & Hpr).
  rewrite Hl in Hlr, Hr. cbn [sel_limit] in Hlr. rewrite Hlr in Hpr. cbn [apply_limit] in Hpr.
  unfold listing_rows in Hr. cbn [sel_filter_config sel_entries] in Hr.
  rewrite build_rows_no_list in Hr. injection Hr as <-.
  set (rows := map _ ps) in Hpr.
  assert (Forall (fun r => r_entry r = (∅ : gmap Z Entry) !! p_id (r_project r)) rows) as Hf.
  { apply List.Forall_forall. intros r Hin. apply in_map_iff in Hin as (p & <- & _).
    by rewrite lookup_empty. }
  pose proof (order_rows_perm ∅ (effective_sort_field (show_scores res) (sel_sort_field (selected_list res)))
                (sel_sort_desc (selected_list res)) rows Hf) as Hp.
  split.
  - rewrite Hpr, <- List.map_map, enumerate_rows.
    transitivity (map r_project rows); [by apply Permutation_map|].
    unfold rows. rewrite List.map_map. simpl. by rewrite List.map_id.
  - rewrite Hpr. apply List.Forall_forall. intros x Hx. apply enumerate_in in Hx.
    apply (Permutation_in _ Hp) in Hx. unfold rows in Hx.
    apply in_map_iff in Hx as (p & <- & _). reflexivity.
Qed.

Lemma no_list_shows_all_witness :
  exists res,
    project_list Sample.exact Sample.ops [] [Sample.pA; Sample.pB] None = inr res /\
    map (fun x => r_project (rr_row x)) (project_rows res) ≡ₚ [Sample.pA; Sample.pB] /\
    Forall (fun x => r_entry (rr_row x) = None) (project_rows res).
Proof.
  eexists. split; [reflexivity|].
  apply (no_list_shows_all Sample.exact Sample.ops [] [Sample.pA; Sample.pB] None); reflexivity.
Defined.

Lemma require_loop_true p fs f :
  require_loop p fs = Some true -> In f fs ->
  exists field, flag_field f = Some field /\ getattr_truthy p field = true.
Proof.
  induction fs as [|g fs IH]; intros H Hin; [done|]. simpl in H.
  destruct (flag_field g) as [field|] eqn:Hg; [|done].
  destruct (getattr_truthy p field) eqn:Ht; [|done].
  destruct Hin as [<-|Hin]; [by exists field|by apply IH].
Qed.

Lemma exclude_loop_true p fs f :
  exclude_loop p fs = Some true -> In f fs ->
  exists field, flag_field f = Some field /\ getattr_truthy p field = false.
Proof.
  induction fs as [|g fs IH]; intros H Hin; [done|]. simpl in H.
  destruct (flag_field g) as [field|] eqn:Hg; [|done].
  destruct (getattr_truthy p field) eqn:Ht; [done|].
  destruct Hin as [<-|Hin]; [by exists field|by apply IH].
Qed.

(** A filter that lists one flag both in [require_flags] and in
    [exclude_flags] matches no project. *)
Lemma matches_conflict p fc rf ef s :
  fc_get fc "require_flags" = JList rf -> fc_get fc "exclude_flags" = JList ef ->
  In (JStr s) rf -> In (JStr s) ef ->
  _project_matches_filter p fc <> Some true.
Proof.
  intros Hrf Hef Hr He. unfold _project_matches_filter.
  rewrite (fc_get_nonempty fc "require_flags" (JList rf) Hrf ltac:(discriminate)).
  destruct (check_main _ _) as [[|]|]; try discriminate.
  destruct (check_eligible _ _) as [[|]|]; try discriminate.
  rewrite Hrf, iter_or_empty_list.
  destruct (require_loop p rf) as [[|]|] eqn:Hreq; try discriminate.
  rewrite Hef, iter_or_empty_list. intros Hex.
  destruct (require_loop_true _ _ _ Hreq Hr) as (f1 & Hf1 & Ht1).
  destruct (exclude_loop_true _ _ _ Hex He) as (f2 & Hf2 & Ht2).
  rewrite Hf1 in Hf2. injection Hf2 as ->. congruence.
Qed.

(** A list whose filter both requires and excludes one flag displays only
    projects whose entry in it is whitelisted and not blacklisted. *)
Theorem conflict_shows_whitelisted dr u lists ps param res l rf ef s x :
  project_list dr u lists ps param = inr res ->
  selected_list res = Some l ->
  fc_get (filter_config l) "require_flags" = JList rf ->
  fc_get (filter_config l) "exclude_flags" = JList ef ->
  In (JStr s) rf -> In (JStr s) ef ->
  In x (project_rows res) ->
  exists e, r_entry (rr_row x) = Some e /\ is_whitelisted e = true /\ is_blacklisted e = false.
Proof.
  intros H Hl Hrf Hef Hr He Hx.
  destruct (project_list_row_included _ _ _ _ _ _ _ _ H Hl Hx) as [_ Hinc].
  pose proof (matches_conflict (r_project (rr_row x)) _ _ _ _ Hrf Hef Hr He) as Hm.
  unfold include_project in Hinc.
  destruct (r_entry (rr_row x)) as [e|]; cbn [entry_flag] in Hinc.
  - exists e. destruct (is_blacklisted e); [discriminate|].
    destruct (_project_matches_filter _ _) as [m|]; [|discriminate].
    destruct (truthy _); [by injection Hinc as ->|].
    destruct (is_whitelisted e); [done|]. injection Hinc as ->. done.
  - destruct (_project_matches_filter _ _) as [m|]; [|discriminate].
    destruct (truthy _); [discriminate|]. injection Hinc as ->. done.
Qed.

Lemma conflict_shows_whitelisted_witness :
  exists res x,
    project_list Sample.exact Sample.admin [Sample2.conflict]
      [Sample.pA; Sample.pB] (Some "conflict") = inr res /\
    In x (project_rows res) /\
    exists e, r_entry (rr_row x) = Some e /\ is_whitelisted e = true /\ is_blacklisted e = false.
Proof.
  do 2 eexists. split; [reflexivity|]. split; [simpl; left; reflexivity|].
  eapply (conflict_shows_whitelisted Sample.exact Sample.admin [Sample2.conflict]
           [Sample.pA; Sample.pB] (Some "conflict") _ Sample2.conflict
           [JStr "beginner"] [JStr "is_beginner"; JStr "beginner"] "beginner");
    try reflexivity.
  - simpl. left. reflexivity.
  - simpl. right. left. reflexivity.
  - simpl. left. reflexivity.
Defined.

Lemma select_list_err r avail s e : select_list r avail s = inl e -> e = Http404.
Proof.
  unfold select_list. destruct (negb _).
  - destruct (find _ _); [discriminate|]. by intros [= <-].
  - destruct (List.filter is_default avail) as [|d ds]; [|destruct (find _ _)]; discriminate.
Qed.

Lemma project_list_denied dr u lists ps param :
  project_list dr u lists ps param = inl PermissionDenied ->
  existsb (String.eqb (_effective_role u)) [ROLE_ADMIN; ROLE_JUDGE; ROLE_HACKTJ] = false.
Proof.
  unfold project_list. destruct (existsb _ _); cbn [negb]; [|done].
  destruct (select_list _ _ _) as [e|sel] eqn:Hs.
  - intros [= ->]. apply select_list_err in Hs. discriminate.
  - destruct (listing_rows _ _ _); [|discriminate].
    destruct (_describe_filters _); discriminate.
Qed.

(** A staff or superuser account is never refused the listing, whatever
    its role, and it is shown the scores. *)
Theorem staff_sees_scores dr u lists ps param :
  (is_superuser u || is_staff u) = true ->
  project_list dr u lists ps param <> inl PermissionDenied /\
  forall res, project_list dr u lists ps param = inr res -> show_scores res = true.
Proof.
  intros Hsu. assert (_effective_role u = ROLE_ADMIN) as Hr.
  { unfold _effective_role. rewrite Hsu. cbn [andb].
    destruct (String.eqb_spec (role u) ROLE_ADMIN); simpl; congruence. }
  split.
  - intros E. apply project_list_denied in E. rewrite Hr in E. discriminate.
  - intros res E. destruct (project_list_fields _ _ _ _ _ _ E) as (_ & _ & Hs & _).
    by rewrite Hs, Hr.
Qed.

Lemma staff_sees_scores_witness :
  project_list Sample.exact Sample2.staff_team [Sample.focus] [Sample.pA] None
    <> inl PermissionDenied /\
  forall res, project_list Sample.exact Sample2.staff_team [Sample.focus] [Sample.pA] None = inr res ->
    show_scores res = true.
Proof. apply (staff_sees_scores Sample.exact Sample2.staff_team [Sample.focus] [Sample.pA] None). reflexivity. Defined.

(** ** [str.strip] *)

Lemma los_app s1 s2 : los (s1 ++ s2) = (los s1 ++ los s2)%list.
Proof. induction s1 as [|c s1 IH]; simpl; [done|]. by rewrite IH. Qed.

Lemma lstrip_spec l :
  exists sp, l = (sp ++ lstrip_list l)%list /\ Forall (fun c => is_space c = true) sp /\
             head_ok (lstrip_list l).
Proof.
  induction l as [|c l IH]; simpl.
  - exists []. done.
  - destruct (is_space c) eqn:Hc.
    + destruct IH as (sp & Hl & Hsp & Hh). exists (c :: sp). split; [simpl; by rewrite <- Hl|]. by split; [constructor|].
    + exists []. done.
Qed.

Lemma lstrip_spaces sp l :
  Forall (fun c => is_space c = true) sp -> lstrip_list (sp ++ l)%list = lstrip_list l.
Proof. induction 1 as [|c sp Hc _ IH]; simpl; [done|]. by rewrite Hc. Qed.

Lemma lstrip_id l : head_ok l -> lstrip_list l = l.
Proof. destruct l as [|c l]; simpl; [done|]. by intros ->. Qed.

Lemma head_ok_app l1 l2 : l1 <> [] -> head_ok l1 -> head_ok (l1 ++ l2)%list.
Proof. by destruct l1. Qed.

Lemma head_ok_app_inv l1 l2 : l1 <> [] -> head_ok (l1 ++ l2)%list -> head_ok l1.
Proof. by destruct l1. Qed.

(** [s.strip()] drops a run of spaces at each end, and what it keeps
    starts and ends with a non-space character. *)
Lemma strip_spec s :
  exists a b, los s = (a ++ los (strip s) ++ b)%list /\
    Forall (fun c => is_space c = true) a /\ Forall (fun c => is_space c = true) b /\
    head_ok (los (strip s)) /\ head_ok (rev (los (strip s))).
Proof.
  unfold strip. rewrite String.list_ascii_of_string_of_list_ascii.
  set (L := los s). destruct (lstrip_spec L) as (a & HL & Ha & Hh1).
  set (A := lstrip_list L) in *. destruct (lstrip_spec (rev A)) as (c & HA & Hc & Hh2).
  set (C := lstrip_list (rev A)) in *.
  assert (A = rev C ++ rev c)%list as HA'.
  { rewrite <- (rev_involutive A), HA. by rewrite rev_app_distr. }
  exists a, (rev c). split; [|split; [done|split; [by apply Forall_rev|split]]].
  - by rewrite HL, HA'.
  - destruct C as [|x C']; [done|]. apply (head_ok_app_inv _ (rev c)); [|by rewrite <- HA'].
    simpl. by destruct (rev C').
  - by rewrite rev_involutive.
Qed.

(** Conversely, a string that is a run of spaces, a part that starts and
    ends with a non-space, and a run of spaces strips to that part. *)
Lemma strip_of_parts s a m b :
  los s = (a ++ m ++ b)%list ->
  Forall (fun c => is_space c = true) a -> Forall (fun c => is_space c = true) b ->
  head_ok m -> head_ok (rev m) -> strip s = sol m.
Proof.
  intros Hs Ha Hb Hm Hr. unfold strip. rewrite Hs, lstrip_spaces by done.
  destruct m as [|x m'].
  - simpl. rewrite <- (app_nil_r b), lstrip_spaces by done. done.
  - rewrite (lstrip_id ((x :: m') ++ b)) by (apply head_ok_app; done).
    rewrite rev_app_distr, lstrip_spaces by (by apply Forall_rev).
    rewrite lstrip_id by done. by rewrite rev_involutive.
Qed.

Lemma strip_strip s : strip (strip s) = strip s.
Proof.
  destruct (strip_spec s) as (a & b & _ & _ & _ & Hh & Hr).
  rewrite (strip_of_parts (strip s) [] (los (strip s)) []); try done.
  - by rewrite String.string_of_list_ascii_of_string.
  - by rewrite app_nil_r.
Qed.

(** [strip(s) == ""] only for a string of spaces. *)
Lemma strip_empty s :
  strip s = "" -> Forall (fun c => is_space c = true) (los s).
Proof.
  intros He. destruct (strip_spec s) as (a & b & Hs & Ha & Hb & _).
  rewrite He in Hs. simpl in Hs. rewrite Hs. by apply Forall_app.
Qed.

Lemma strip_infix s : exists a b, los s = (a ++ los (strip s) ++ b)%list.
Proof. destruct (strip_spec s) as (a & b & Hs & _). by exists a, b. Qed.

Lemma strip_fixed_ends n :
  strip n = n -> head_ok (los n) /\ head_ok (rev (los n)).
Proof. intros Hn. destruct (strip_spec n) as (a & b & _ & _ & _ & H1 & H2). by rewrite Hn in H1, H2. Qed.

Lemma strip_space_prefix n : strip n = n -> strip (String " " n) = n.
Proof.
  intros Hn. destruct (strip_fixed_ends n Hn) as [H1 H2].
  rewrite (strip_of_parts (String " " n) [" "%char] (los n) []); try done.
  - by rewrite String.string_of_list_ascii_of_string.
  - simpl. by rewrite app_nil_r.
  - by repeat constructor.
Qed.

(** ** [_members_list] *)

Lemma no_comma_iff t :
  str_contains "," t = false <-> forallb (fun c => negb (Ascii.eqb c ",")) (los t) = true.
Proof.
  induction t as [|c t IH]; [done|].
  assert (String.prefix "," (String c t) = Ascii.eqb c ",") as Hp.
  { cbn [String.prefix].
    destruct (ascii_dec "," c) as [Hc|Hc]; destruct (Ascii.eqb_spec c ","); try congruence.
    by destruct t. }
  change (str_contains "," (String c t)) with (String.prefix "," (String c t) || str_contains "," t).
  rewrite Hp. cbn [forallb String.list_ascii_of_string].
  destruct (Ascii.eqb c ","); simpl; [done|exact IH].
Qed.

Lemma split_aux_pieces sep s w ws :
  split_aux sep s = (w, ws) ->
  Forall (fun x => forallb (fun c => negb (Ascii.eqb c sep)) (los x) = true) (w :: ws).
Proof.
  revert w ws. induction s as [|c s IH]; intros w ws H; simpl in H.
  - injection H as <- <-. by repeat constructor.
  - destruct (split_aux sep s) as [w' ws'] eqn:Hs. pose proof (IH w' ws' eq_refl) as IH'.
    destruct (Ascii.eqb_spec c sep).
    + injection H as <- <-. constructor; [done|exact IH'].
    + injection H as <- <-. inversion IH' as [|? ? Hw Hws]; subst.
      constructor; [|exact Hws]. simpl. destruct (Ascii.eqb_spec c sep); [done|]. exact Hw.
Qed.

Lemma forallb_infix {A} (f : A -> bool) a m b :
  forallb f (a ++ m ++ b)%list = true -> forallb f m = true.
Proof. rewrite !forallb_app. intros H. by apply andb_prop in H as [_ H]; apply andb_prop in H as [H _]. Qed.

Lemma strip_keeps_no_comma t : str_contains "," t = false -> str_contains "," (strip t) = false.
Proof.
  rewrite !no_comma_iff. destruct (strip_infix t) as (a & b & Ht). rewrite Ht.
  apply forallb_infix.
Qed.

(** The members of a team are all truthy, and the members read from a
    string are non-empty, have no surrounding spaces and hold no comma. *)
Theorem members_list_clean m s :
  Forall (fun v => truthy v = true) (_members_list m) /\
  Forall (fun v => exists t, v = JStr t /\ t <> "" /\ strip t = t /\ str_contains "," t = false)
    (_members_list (Some (JStr s))).
Proof.
  assert (forall part, In part (List.filter (fun part => negb (String.eqb (strip part) ""))
                                   (py_split ","%char (strip s))) ->
            strip part <> "" /\ str_contains "," part = false) as Hparts.
  { intros part Hp. apply filter_In in Hp as [Hin Hne].
    split; [by intros E; rewrite E in Hne|].
    unfold py_split in Hin. destruct (split_aux "," (strip s)) as [w ws] eqn:Hs.
    apply split_aux_pieces in Hs. rewrite List.Forall_forall in Hs.
    apply no_comma_iff. by apply Hs. }
  split.
  - destruct m as [[| | | s' | ms |]|]; simpl; try constructor.
    + destruct (String.eqb (strip s') ""); [constructor|].
      apply List.Forall_forall. intros v Hv. apply in_map_iff in Hv as (part & <- & Hp).
      apply filter_In in Hp as [_ Hne]. exact Hne.
    + apply Forall_filter_true.
  - simpl. destruct (String.eqb (strip s) ""); [constructor|].
    apply List.Forall_forall. intros v Hv. apply in_map_iff in Hv as (part & <- & Hp).
    destruct (Hparts part Hp) as [Hne Hnc]. exists (strip part).
    split; [done|]. split; [done|]. split; [apply strip_strip|]. by apply strip_keeps_no_comma.
Qed.

Lemma append_empty_r s : (s ++ "")%string = s.
Proof. induction s as [|c s IH]; [done|]. exact (f_equal (String c) IH). Qed.

Lemma split_aux_app sep n s :
  forallb (fun c => negb (Ascii.eqb c sep)) (los n) = true ->
  split_aux sep (n ++ s) = let (w, ws) := split_aux sep s in ((n ++ w)%string, ws).
Proof.
  induction n as [|c n IH]; intros Hn.
  - change (("" ++ s)%string) with s. by destruct (split_aux sep s).
  - change ((String c n ++ s)%string) with (String c (n ++ s)). cbn [split_aux].
    simpl in Hn. apply andb_prop in Hn as [Hc Hn]. rewrite (IH Hn).
    destruct (split_aux sep s) as [w ws].
    destruct (Ascii.eqb_spec c sep); [done|reflexivity].
Qed.

Lemma split_concat n ns :
  Forall (fun t => str_contains "," t = false) (n :: ns) ->
  split_aux "," (String.concat ", " (n :: ns)) = (n, map (String " ") ns).
Proof.
  revert n. induction ns as [|m ms IH]; intros n Hf.
  - inversion Hf as [|? ? Hn _]; subst. apply no_comma_iff in Hn.
    change (String.concat ", " [n]) with n.
    pose proof (split_aux_app "," n "" Hn) as E. rewrite append_empty_r in E.
    rewrite E. simpl. by rewrite append_empty_r.
  - inversion Hf as [|? ? Hn Hms]; subst. apply no_comma_iff in Hn.
    change (String.concat ", " (n :: m :: ms))
      with (n ++ String ","%char (String " "%char (String.concat ", " (m :: ms))))%string.
    rewrite (split_aux_app _ _ _ Hn). cbn [split_aux]. rewrite (IH m Hms). simpl.
    by rewrite append_empty_r.
Qed.

Lemma concat_ends n ns :
  Forall (fun t => t <> "" /\ strip t = t) (n :: ns) ->
  los (String.concat ", " (n :: ns)) <> [] /\
  head_ok (los (String.concat ", " (n :: ns))) /\
  head_ok (rev (los (String.concat ", " (n :: ns)))).
Proof.
  revert n. induction ns as [|m ms IH]; intros n Hf.
  - inversion Hf as [|? ? [Hne Hn] _]; subst. simpl.
    split; [by destruct n|]. by apply strip_fixed_ends.
  - inversion Hf as [|? ? [Hne Hn] Hms]; subst. destruct (IH m Hms) as (Hne' & _ & Hr').
    destruct (strip_fixed_ends n Hn) as [Hh _].
    change (String.concat ", " (n :: m :: ms))
      with (n ++ String ","%char (String " "%char (String.concat ", " (m :: ms))))%string.
    rewrite los_app. assert (los n <> []) as Hn' by (by destruct n).
    split; [by destruct (los n)|]. split; [by apply head_ok_app|].
    replace (los (String ","%char (String " "%char (String.concat ", " (m :: ms)))))
      with ([","%char; " "%char] ++ los (String.concat ", " (m :: ms)))%list by reflexivity.
    rewrite app_assoc, rev_app_distr. apply head_ok_app; [|done].
    intros E. apply Hne'. by apply (f_equal (@rev _)) in E; rewrite rev_involutive in E.
Qed.

(** Names that are non-empty, have no surrounding spaces and hold no
    comma, stored as one comma-separated string, are read back as those
    names in order. *)
Theorem members_string_roundtrip names :
  Forall (fun t => t <> "" /\ strip t = t /\ str_contains "," t = false) names ->
  _members_list (Some (JStr (String.concat ", " names))) = map JStr names.
Proof.
  destruct names as [|n ns]; intros Hf; [reflexivity|].
  assert (Forall (fun t => t <> "" /\ strip t = t) (n :: ns)) as Hf1
    by (eapply Forall_impl; [exact Hf|]; intros t (? & ? & _); by split).
  assert (Forall (fun t => str_contains "," t = false) (n :: ns)) as Hf2
    by (eapply Forall_impl; [exact Hf|]; intros t (_ & _ & ?); done).
  destruct (concat_ends n ns Hf1) as (Hne & Hh & Hr).
  assert (strip (String.concat ", " (n :: ns)) = String.concat ", " (n :: ns)) as Hs.
  { rewrite (strip_of_parts _ [] (los (String.concat ", " (n :: ns))) []); try done.
    - by rewrite String.string_of_list_ascii_of_string.
    - by rewrite app_nil_r. }
  unfold _members_list. rewrite Hs.
  destruct (String.eqb_spec (String.concat ", " (n :: ns)) "") as [E|_];
    [by rewrite E in Hne|].
  unfold py_split. rewrite (split_concat n ns Hf2).
  inversion Hf1 as [|? ? [Hn1 Hn2] Hns]; subst. simpl. rewrite Hn2.
  destruct (String.eqb_spec n "") as [|_]; [done|]. simpl. rewrite Hn2. f_equal.
  clear Hf Hf1 Hf2 Hne Hh Hr Hs. induction Hns as [|m ms [Hm1 Hm2] _ IH]; [done|].
  simpl. rewrite (strip_space_prefix m Hm2).
  destruct (String.eqb_spec m "") as [|_]; [done|]. simpl.
  rewrite (strip_space_prefix m Hm2). by f_equal.
Qed.

Lemma members_string_roundtrip_witness :
  Forall (fun t => t <> "" /\ strip t = t /\ str_contains "," t = false) ["Ada"; "Grace Hopper"] /\
  _members_list (Some (JStr (String.concat ", " ["Ada"; "Grace Hopper"]))) =
    map JStr ["Ada"; "Grace Hopper"].
Proof.
  assert (Forall (fun t => t <> "" /\ strip t = t /\ str_contains "," t = false)
            ["Ada"; "Grace Hopper"]) as H
    by (repeat constructor; try discriminate; reflexivity).
  split; [exact H|]. apply (members_string_roundtrip ["Ada"; "Grace Hopper"]). exact H.
Defined.

(** ** Sets of category codes *)

Section InsertSorted.
Context {A : Type} (lt : A -> A -> bool).
Hypothesis lt_asym : forall x y, lt x y = true -> lt y x = false.

Lemma insert_by_sorted_gen x l :
  Sorted (fun a b => lt b a = false) l -> Sorted (fun a b => lt b a = false) (insert_by lt x l).
Proof.
  induction 1 as [|y l Hs IH Hhd]; simpl; [by repeat constructor|].
  destruct (lt y x) eqn:Hyx.
  - constructor; [exact IH|].
    destruct l as [|z l]; simpl; [constructor; by apply lt_asym|].
    inversion Hhd as [|? ? Hzy]; subst. destruct (lt z x); constructor; [exact Hzy|by apply lt_asym].
  - constructor; [by constructor|]. by constructor.
Qed.

Lemma sort_by_sorted_gen l : Sorted (fun a b => lt b a = false) (sort_by lt l).
Proof. induction l as [|x l IH]; simpl; [constructor|]. by apply insert_by_sorted_gen. Qed.
End InsertSorted.

Lemma string_ltb_asym x y : String.ltb x y = true -> String.ltb y x = false.
Proof.
  unfold String.ltb. rewrite (String.compare_antisym y x).
  by destruct (String.compare x y).
Qed.

Lemma in_set_add x y s : In y (set_add x s) <-> y = x \/ In y s.
Proof.
  unfold set_add. destruct (existsb (String.eqb x) s) eqn:E.
  - apply existsb_exists in E as (z & Hz & Exz). apply String.eqb_eq in Exz as <-.
    split; [by right|]. by intros [->|?].
  - rewrite in_app_iff. simpl.
    split; [intros [H|[<-|[]]]; [by right|by left]|intros [->|H]; [by right; left|by left]].
Qed.

Lemma nodup_set_add x s : NoDup s -> NoDup (set_add x s).
Proof.
  unfold set_add. destruct (existsb (String.eqb x) s) eqn:E; [done|]. intros Hs.
  apply NoDup_app. split; [done|]. split; [|apply NoDup_singleton].
  intros y Hy Hy'. rewrite list_elem_of_In in Hy, Hy'. destruct Hy' as [<-|[]].
  assert (existsb (String.eqb x) s = true) as E'
    by (apply existsb_exists; exists x; by rewrite String.eqb_refl).
  congruence.
Qed.

Lemma in_set_discard x y s : In y (set_discard x s) <-> In y s /\ y <> x.
Proof.
  unfold set_discard. rewrite filter_In. destruct (String.eqb_spec y x) as [->|Hne]; simpl.
  - split; intros [_ H]; [discriminate|by destruct H].
  - split; intros [H _]; by split.
Qed.

Lemma nodup_set_discard x s : NoDup s -> NoDup (set_discard x s).
Proof.
  unfold set_discard. induction 1 as [|y s Hy Hs IH]; simpl; [constructor|].
  destruct (negb (String.eqb y x)); [|exact IH]. constructor; [|exact IH].
  rewrite list_elem_of_In, filter_In. rewrite list_elem_of_In in Hy. tauto.
Qed.

Lemma py_set_spec l :
  NoDup (py_set l) /\ forall y, In y (py_set l) <-> In y l.
Proof.
  unfold py_set. cut (forall acc, NoDup acc ->
    NoDup (fold_left (fun s x => set_add x s) l acc) /\
    forall y, In y (fold_left (fun s x => set_add x s) l acc) <-> In y acc \/ In y l).
  { intros H. destruct (H [] NoDup_nil_2) as [H1 H2]. split; [done|]. intros y. rewrite H2. simpl. tauto. }
  induction l as [|x l IH]; intros acc Hacc; simpl.
  - split; [done|]. tauto.
  - destruct (IH (set_add x acc) (nodup_set_add x acc Hacc)) as [H1 H2]. split; [done|].
    intros y. rewrite H2, in_set_add. simpl. split.
    + intros [[->|H]|H]; [right; by left|by left|by right; right].
    + intros [H|[->|H]]; [left; by right|left; by left|by right].
Qed.

Lemma side_track_facts p tracks c :
  NoDup (eligible_categories (_apply_side_track_flags p tracks)) /\
  Sorted (fun a b => String.ltb b a = false) (eligible_categories (_apply_side_track_flags p tracks)) /\
  (In c (eligible_categories (_apply_side_track_flags p tracks)) <->
   if String.eqb c "social_impact" then truthy (fc_get tracks "social_impact") = true
   else if String.eqb c "coder" then truthy (fc_get tracks "coder") = true
   else In c (eligible_categories p)).
Proof.
  unfold _apply_side_track_flags, with_eligible, py_sorted, py_sort. cbn [eligible_categories].
  destruct (py_set_spec (eligible_categories p)) as [Hnd Hin].
  set (s0 := py_set (eligible_categories p)) in *.
  set (step := fun (s : list string) (key : string) =>
         if truthy (fc_get tracks key) then set_add key s else set_discard key s).
  change (fold_left _ ["social_impact"; "coder"] s0) with (step (step s0 "social_impact") "coder").
  assert (forall s key, NoDup s -> NoDup (step s key)) as Hstep_nd.
  { intros s key Hs. unfold step. destruct (truthy _); [by apply nodup_set_add|by apply nodup_set_discard]. }
  assert (forall s key y, In y (step s key) <->
            if String.eqb y key then truthy (fc_get tracks key) = true else In y s) as Hstep_in.
  { intros s key y. unfold step. destruct (String.eqb_spec y key) as [->|Hne].
    - destruct (truthy _); [rewrite in_set_add; tauto|rewrite in_set_discard; split; [tauto|done]].
    - destruct (truthy _); [rewrite in_set_add; tauto|rewrite in_set_discard; tauto]. }
  pose proof (sort_by_perm (fun a b : string => String.ltb a b) (step (step s0 "social_impact") "coder")) as Hp.
  split; [|split].
  - rewrite Hp. by apply Hstep_nd, Hstep_nd.
  - apply sort_by_sorted_gen. apply string_ltb_asym.
  - split; intros H.
    + apply (Permutation_in _ Hp) in H. apply Hstep_in in H.
      destruct (String.eqb_spec c "coder") as [->|Hc]; [done|].
      apply Hstep_in in H. destruct (String.eqb_spec c "social_impact") as [->|Hs]; [done|].
      by apply Hin.
    + eapply Permutation_in; [symmetry; exact Hp|]. apply Hstep_in.
      destruct (String.eqb_spec c "coder") as [->|Hc]; [done|].
      apply Hstep_in. destruct (String.eqb_spec c "social_impact") as [->|Hs]; [done|].
      by apply Hin.
Qed.

(** After [_apply_side_track_flags], the categories of the project hold
    each code at most once, in sorted order; [social_impact] and [coder]
    are there exactly when their track is truthy, and every other code is
    kept as it was. *)
Theorem side_track_flags_spec p tracks c :
  NoDup (eligible_categories (_apply_side_track_flags p tracks)) /\
  Sorted (fun a b => String.ltb b a = false) (eligible_categories (_apply_side_track_flags p tracks)) /\
  (In c (eligible_categories (_apply_side_track_flags p tracks)) <->
   if String.eqb c "social_impact" then truthy (fc_get tracks "social_impact") = true
   else if String.eqb c "coder" then truthy (fc_get tracks "coder") = true
   else In c (eligible_categories p)).
Proof. apply side_track_facts. Qed.

Lemma existsb_eqb_In x l : existsb (String.eqb x) l = true <-> In x l.
Proof.
  rewrite existsb_exists. split.
  - intros (y & Hy & E). by apply String.eqb_eq in E as ->.
  - intros Hx. exists x. by rewrite String.eqb_refl.
Qed.

Lemma existsb_py_set x l : existsb (String.eqb x) (py_set l) = existsb (String.eqb x) l.
Proof.
  destruct (py_set_spec l) as [_ Hin].
  apply eq_true_iff_eq. rewrite !existsb_eqb_In. apply Hin.
Qed.

Lemma side_track_code p tracks c b :
  fc_get tracks c = JBool b -> (c = "social_impact" \/ c = "coder") ->
  existsb (String.eqb c) (py_set (eligible_categories (_apply_side_track_flags p tracks))) = b.
Proof.
  intros Hc Hcs. rewrite existsb_py_set.
  destruct (side_track_facts p tracks c) as (_ & _ & Hin).
  apply eq_true_iff_eq. rewrite existsb_eqb_In, Hin.
  destruct Hcs as [->| ->]; simpl; rewrite Hc; simpl; tauto.
Qed.

(** Saving the category form and building the form again from the saved
    team and project gives back what was submitted, with the team name
    stripped. *)
Theorem category_form_roundtrip data p :
  cd_side_mobile_web data = "mobile" \/ cd_side_mobile_web data = "web" ->
  _category_form_initial (apply_category_form data p).1 (apply_category_form data p).2 =
  mkCategoryInitial (strip (cd_team_name data)) (cd_main_category data) (cd_side_beginner data)
    (cd_side_social_impact data) (cd_side_mobile_web data) (cd_side_ai_ml data)
    (cd_side_roam data) (cd_side_coder data).
Proof.
  intros Hmw. unfold apply_category_form. cbn [fst snd]. unfold _category_form_initial.
  set (tracks := <["social_impact" := JBool (cd_side_social_impact data)]>
                   (<["coder" := JBool (cd_side_coder data)]> (∅ : gmap string json))).
  set (p' := mkProject _ _ _ _ _ _ _ _ _ _ _ _).
  rewrite (side_track_code p' tracks "social_impact" (cd_side_social_impact data));
    [|unfold tracks; by rewrite fc_get_insert_eq|by left].
  rewrite (side_track_code p' tracks "coder" (cd_side_coder data));
    [|unfold tracks; rewrite fc_get_insert_ne by discriminate; by rewrite fc_get_insert_eq|by right].
  unfold _apply_side_track_flags, with_eligible, p'. cbn.
  f_equal. destruct Hmw as [-> | ->]; reflexivity.
Qed.

Lemma category_form_roundtrip_witness :
  (cd_side_mobile_web (mkCategoryData " Team Rocket " "finance" true true "web" false true false)
     = "mobile" \/
   cd_side_mobile_web (mkCategoryData " Team Rocket " "finance" true true "web" false true false)
     = "web") /\
  _category_form_initial
    (apply_category_form (mkCategoryData " Team Rocket " "finance" true true "web" false true false)
       Sample.pA).1
    (apply_category_form (mkCategoryData " Team Rocket " "finance" true true "web" false true false)
       Sample.pA).2 =
  mkCategoryInitial (strip " Team Rocket ") "finance" true true "web" false true false.
Proof.
  split; [right; reflexivity|].
  apply (category_form_roundtrip (mkCategoryData " Team Rocket " "finance" true true "web" false true false)
           Sample.pA).
  right. reflexivity.
Defined.

(** A category form is saved only on a POST by a team account that owns
    the project's team (as its account or through its profile), only up
    to the category deadline as read by the view's first clock read, and
    the save records the time of its second clock read as
    [category_submitted_at]. *)
Theorem category_post_guard is_post r uid acct prof tid ft now dl form p saved_at name p' t :
  category_post is_post (is_team_view r uid acct prof tid) ft now dl form p saved_at =
    Some (name, p', t) ->
  is_post = true /\ r = ROLE_TEAM /\ (acct = Some uid \/ prof = Some tid) /\
  ft = Some "category" /\ (now <= dl)%Z /\ t = saved_at /\
  exists data, form = Some data /\ apply_category_form data p = (name, p').
Proof.
  unfold category_post, is_team_view.
  destruct is_post; cbn [andb]; [|discriminate].
  destruct (String.eqb_spec r ROLE_TEAM) as [->|]; cbn [andb]; [|discriminate].
  destruct (match acct with Some a => Z.eqb a uid | None => false end) eqn:Ha;
  destruct (match prof with Some q => Z.eqb q tid | None => false end) eqn:Hp;
    cbn [orb]; try discriminate;
  (assert (acct = Some uid \/ prof = Some tid) as Hown
     by (first [ left; destruct acct as [a|]; [apply Z.eqb_eq in Ha; by subst|discriminate]
               | right; destruct prof as [q|]; [apply Z.eqb_eq in Hp; by subst|discriminate]]));
  (destruct ft as [f|]; [|discriminate]);
  (destruct (String.eqb_spec f "category") as [->|]; [|discriminate]);
  (destruct (Z.ltb_spec dl now); [discriminate|]);
  (destruct form as [data|]; [|discriminate]);
  (destruct (apply_category_form data p) as [n q] eqn:Hap);
  intros [= -> -> ->]; repeat split; try done; by exists data.
Qed.

Lemma category_post_guard_witness :
  exists name p' t,
    category_post true (is_team_view ROLE_TEAM 5 (Some 5%Z) None 1) (Some "category") 10 20
      (Some (mkCategoryData "Rocket" "finance" true false "mobile" false false true)) Sample.pA 11 =
      Some (name, p', t) /\
    true = true /\ ROLE_TEAM = ROLE_TEAM /\ (Some 5%Z = Some 5%Z \/ @None Z = Some 1%Z) /\
    Some "category" = Some "category" /\ (10 <= 20)%Z /\ t = 11%Z /\
    exists data, Some (mkCategoryData "Rocket" "finance" true false "mobile" false false true) = Some data /\
      apply_category_form data Sample.pA = (name, p').
Proof.
  do 3 eexists. split; [reflexivity|].
  apply (category_post_guard true ROLE_TEAM 5 (Some 5%Z) None 1 (Some "category") 10 20
           (Some (mkCategoryData "Rocket" "finance" true false "mobile" false false true)) Sample.pA 11).
  reflexivity.
Defined.

(** ** The score summary of the project page *)

Lemma fold_add_perm (l l' : list Z) a :
  l ≡ₚ l' -> fold_left Z.add l a = fold_left Z.add l' a.
Proof.
  intros Hp. revert a. induction Hp as [|x l l' _ IH|x y l|l l' l'' _ IH1 _ IH2];
    intros a; simpl; try done.
  - replace (a + y + x)%Z with (a + x + y)%Z by lia. done.
  - by rewrite IH1, IH2.
Qed.

Lemma omap_perm {A B} (f : A -> option B) (l l' : list A) :
  l ≡ₚ l' -> omap f l ≡ₚ omap f l'.
Proof.
  induction 1 as [|x l l' _ IH|x y l|l l' l'' _ IH1 _ IH2]; simpl; try done.
  - destruct (f x); [by rewrite IH|done].
  - destruct (f x), (f y); try done. apply perm_swap.
  - by rewrite IH1.
Qed.

Lemma max_of_perm (vs vs' : list Z) : vs' ≡ₚ vs -> max_of vs' = max_of vs.
Proof.
  intros Hp. destruct vs' as [|v' ws'], vs as [|v ws].
  - done.
  - by apply Permutation_nil in Hp.
  - symmetry in Hp. by apply Permutation_nil in Hp.
  - simpl. f_equal. f_equal.
    destruct (list_max_spec v' ws') as [H1 H2]. destruct (list_max_spec v ws) as [H3 H4].
    apply Z.le_antisymm.
    + apply H4. eapply Permutation_in; [exact Hp|exact H1].
    + apply H2. eapply Permutation_in; [symmetry; exact Hp|exact H3].
Qed.

Lemma min_of_perm (vs vs' : list Z) : vs' ≡ₚ vs -> min_of vs' = min_of vs.
Proof.
  intros Hp. destruct vs' as [|v' ws'], vs as [|v ws].
  - done.
  - by apply Permutation_nil in Hp.
  - symmetry in Hp. by apply Permutation_nil in Hp.
  - simpl. f_equal. f_equal.
    destruct (list_min_spec v' ws') as [H1 H2]. destruct (list_min_spec v ws) as [H3 H4].
    apply Z.le_antisymm.
    + apply H2. eapply Permutation_in; [symmetry; exact Hp|exact H3].
    + apply H4. eapply Permutation_in; [exact Hp|exact H1].
Qed.

Lemma detail_avg_perm dr (vs vs' : list Z) :
  vs' ≡ₚ vs -> detail_avg dr (sum_opt vs') (length vs') = avg_of dr vs.
Proof.
  intros Hp. destruct vs' as [|v' ws'], vs as [|v ws].
  - done.
  - by apply Permutation_nil in Hp.
  - symmetry in Hp. by apply Permutation_nil in Hp.
  - unfold sum_opt, detail_avg, avg_of, dec_avg.
    rewrite (fold_add_perm _ _ _ Hp), (Permutation_length Hp). reflexivity.
Qed.

(** The project page computes the same score summary as the listing,
    whatever order it reads the score records in; a viewer who may not
    see scores gets none. *)
Theorem detail_summary_agrees dr role recs recs' :
  recs' ≡ₚ recs ->
  detail_score_summary dr (detail_score_records role recs') =
  if can_see_scores role then _score_summary_from_records dr recs else None.
Proof.
  intros Hp. unfold detail_score_records. destruct (can_see_scores role); [|reflexivity].
  destruct recs' as [|r' rs'], recs as [|r rs].
  - reflexivity.
  - by apply Permutation_nil in Hp.
  - symmetry in Hp. by apply Permutation_nil in Hp.
  - unfold detail_score_summary, _score_summary_from_records.
    set (l' := r' :: rs') in *. set (l := r :: rs) in *.
    assert (map raw_score l' ≡ₚ map raw_score l) as Hraw by (by apply Permutation_map).
    assert (omap scaled_score l' ≡ₚ omap scaled_score l) as Hsc by (by apply omap_perm).
    cbv zeta. unfold l' at 1. unfold l at 1. f_equal. f_equal.
    + by apply Permutation_length.
    + by apply detail_avg_perm.
    + by apply detail_avg_perm.
    + by apply max_of_perm.
    + by apply max_of_perm.
    + by apply min_of_perm.
    + by apply min_of_perm.
Qed.

Lemma detail_summary_agrees_witness :
  [mkScoreRecord 7000 None; mkScoreRecord 9000 (Some 8500%Z)] ≡ₚ
    [mkScoreRecord 9000 (Some 8500%Z); mkScoreRecord 7000 None] /\
  detail_score_summary Sample.exact
    (detail_score_records ROLE_JUDGE [mkScoreRecord 7000 None; mkScoreRecord 9000 (Some 8500%Z)]) =
  if can_see_scores ROLE_JUDGE then
    _score_summary_from_records Sample.exact
      [mkScoreRecord 9000 (Some 8500%Z); mkScoreRecord 7000 None]
  else None.
Proof.
  split; [apply perm_swap|].
  apply (detail_summary_agrees Sample.exact ROLE_JUDGE
           [mkScoreRecord 9000 (Some 8500%Z); mkScoreRecord 7000 None]
           [mkScoreRecord 7000 None; mkScoreRecord 9000 (Some 8500%Z)]).
  apply perm_swap.
Defined.

(** ** [food_checkin] *)

(** What a POST does, by the three branches of the view. *)
Lemma food_checkin_post u uid now store b m ctx store' :
  food_checkin u uid now store (Some (b, m)) = inr (ctx, store') ->
  if String.eqb (strip (default "" b)) "" ||
     negb (existsb (String.eqb (strip (default "" m))) (map fst meal_options))
  then store' = store /\ exists msg, ck_status ctx = Some ("error", msg)
  else
    let st := default new_food_status (store !! strip (default "" b)) in
    if get_meal st (strip (default "" m)) then
      store' = store /\ exists msg, ck_status ctx = Some ("warn", msg)
    else store' = <[strip (default "" b) := check_in_meal st (strip (default "" m)) uid now]> store /\
         exists msg, ck_status ctx = Some ("success", msg).
Proof.
  unfold food_checkin. destruct (negb (existsb _ _)) eqn:Hr; [discriminate|].
  set (badge := strip (default "" b)). set (meal := strip (default "" m)).
  destruct (String.eqb_spec badge "") as [Hb|Hb]; cbn [orb].
  - rewrite Hb. cbn [String.eqb orb]. intros [= <- <-]. split; [done|]. by eexists.
  - destruct (String.eqb_spec meal "") as [Hm|Hm]; cbn [orb].
    + rewrite Hm. intros [= <- <-]. split; [done|]. by eexists.
    + destruct (existsb (String.eqb meal) (map fst meal_options)) eqn:Hv; cbn [negb].
      2: { intros [= <- <-]. split; [done|]. by eexists. }
      destruct (store !! badge) as [st|] eqn:Hs; cbn [default from_option id].
      * destruct (get_meal st meal) eqn:Hg; cbv beta iota zeta.
        -- intros [= <- <-]. split; [done|]. by eexists.
        -- intros [= <- <-]. split; [done|]. by eexists.
      * assert (get_meal new_food_status meal = false) as Hg
          by (unfold get_meal; cbn; by repeat destruct (String.eqb _ _)).
        rewrite Hg. cbv beta iota zeta. intros [= <- <-].
        split; [by rewrite insert_insert_eq|]. by eexists.
Qed.

Lemma get_meal_check_in st meal meal' uid now :
  get_meal (check_in_meal st meal uid now) meal' =
  get_meal st meal' || (String.eqb meal' meal && existsb (String.eqb meal') (map fst meal_options)).
Proof.
  destruct st as [bf ln dn ms lb la]. unfold get_meal, check_in_meal.
  cbn [breakfast lunch dinner midnight_snack meal_options map fst existsb].
  destruct (String.eqb_spec meal' meal) as [<-|Hne];
  [|destruct (String.eqb_spec meal "breakfast") as [->|?];
    [|destruct (String.eqb_spec meal "lunch") as [->|?];
      [|destruct (String.eqb_spec meal "dinner") as [->|?];
        [|destruct (String.eqb_spec meal "midnight_snack") as [->|?]]]]];
  (destruct (String.eqb_spec meal' "breakfast") as [->|?];
    [|destruct (String.eqb_spec meal' "lunch") as [->|?];
      [|destruct (String.eqb_spec meal' "dinner") as [->|?];
        [|destruct (String.eqb_spec meal' "midnight_snack") as [->|?]]]]);
  repeat match goal with
  | H : ?a <> ?b |- context [String.eqb ?a ?b] => rewrite (proj2 (String.eqb_neq a b) H)
  | H : ?b <> ?a |- context [String.eqb ?a ?b] =>
      rewrite (String.eqb_sym a b), (proj2 (String.eqb_neq b a) H)
  end;
  rewrite ?String.eqb_refl; try congruence.
  all: vm_compute; destruct bf, ln, dn, ms; reflexivity.
Qed.

(** A check-in changes at most one meal flag: the posted meal of the
    posted badge (both stripped), and only when the badge is not blank
    and the meal is one of the four; it turns that flag on and leaves
    every other badge and meal as it was.  A badge without a row reads as
    a new row with no meal. *)
Theorem food_checkin_frame u uid now store post ctx store' b' meal' :
  food_checkin u uid now store post = inr (ctx, store') ->
  get_meal (default new_food_status (store' !! b')) meal' =
  get_meal (default new_food_status (store !! b')) meal' ||
  match post with
  | Some (b, m) =>
      String.eqb b' (strip (default "" b)) && negb (String.eqb b' "") &&
      String.eqb meal' (strip (default "" m)) &&
      existsb (String.eqb meal') (map fst meal_options)
  | None => false
  end.
Proof.
  intros H. destruct post as [[b m]|].
  - apply food_checkin_post in H. cbv zeta in H.
    set (badge := strip (default "" b)) in *. set (meal := strip (default "" m)) in *.
    destruct (String.eqb badge "" || negb (existsb (String.eqb meal) (map fst meal_options)))
      eqn:Hc.
    + destruct H as [-> _].
      destruct (String.eqb_spec b' badge) as [->|]; [|by rewrite orb_false_r].
      destruct (String.eqb_spec meal' meal) as [->|]; [|by rewrite andb_false_r, orb_false_r].
      destruct (String.eqb badge ""), (existsb (String.eqb meal) _); try discriminate;
        by rewrite ?orb_false_r.
    + apply orb_false_iff in Hc as [Hb Hv]. apply negb_false_iff in Hv.
      destruct (get_meal (default new_food_status (store !! badge)) meal) eqn:Hg.
      * destruct H as [-> _].
        destruct (String.eqb_spec b' badge) as [->|]; [|by rewrite orb_false_r].
        destruct (String.eqb_spec meal' meal) as [->|]; [|by rewrite andb_false_r, orb_false_r].
        by rewrite Hg.
      * destruct H as [-> _].
        destruct (String.eqb_spec b' badge) as [->|Hne].
        -- rewrite lookup_insert_eq. cbn [default from_option id]. rewrite get_meal_check_in, Hb.
           reflexivity.
        -- rewrite lookup_insert_ne by congruence. by rewrite orb_false_r.
  - unfold food_checkin in H. destruct (negb _); [discriminate|].
    injection H as _ <-. by rewrite orb_false_r.
Qed.

Lemma food_checkin_frame_witness :
  exists ctx store',
    food_checkin Sample.admin 7 100 ∅ (Some (Some " B-12 ", Some "lunch")) = inr (ctx, store') /\
    get_meal (default new_food_status (store' !! "B-12")) "lunch" =
    get_meal (default new_food_status ((∅ : gmap string FoodStatus) !! "B-12")) "lunch" ||
    (String.eqb "B-12" (strip (default "" (Some " B-12 "))) && negb (String.eqb "B-12" "") &&
     String.eqb "lunch" (strip (default "" (Some "lunch"))) &&
     existsb (String.eqb "lunch") (map fst meal_options)).
Proof.
  do 2 eexists. split; [reflexivity|].
  eapply (food_checkin_frame Sample.admin 7 100 ∅ (Some (Some " B-12 ", Some "lunch"))).
  reflexivity.
Defined.

(** Posting the same badge and meal again, after any run of the view,
    changes nothing more: the table stays as it is and the page does not
    report a successful check-in. *)
Theorem food_checkin_repeat u uid uid' now now' store post ctx store' ctx' store'' :
  food_checkin u uid now store post = inr (ctx, store') ->
  food_checkin u uid' now' store' post = inr (ctx', store'') ->
  store'' = store' /\ forall msg, ck_status ctx' <> Some ("success", msg).
Proof.
  intros H1 H2. destruct post as [[b m]|].
  - apply food_checkin_post in H1, H2. cbv zeta in H1, H2.
    set (badge := strip (default "" b)) in *. set (meal := strip (default "" m)) in *.
    destruct (String.eqb badge "" || negb (existsb (String.eqb meal) (map fst meal_options)))
      eqn:Hc.
    + destruct H2 as [-> [msg0 Hs]]. split; [done|]. intros msg. rewrite Hs. congruence.
    + apply orb_false_iff in Hc as [Hb Hv]. apply negb_false_iff in Hv.
      assert (get_meal (default new_food_status (store' !! badge)) meal = true) as Hg'.
      { destruct (get_meal (default new_food_status (store !! badge)) meal) eqn:Hg.
        - destruct H1 as [-> _]. exact Hg.
        - destruct H1 as [-> _]. rewrite lookup_insert_eq. cbn [default from_option id].
          rewrite get_meal_check_in, String.eqb_refl, Hv. apply orb_true_r. }
      rewrite Hg' in H2. destruct H2 as [-> [msg0 Hs]]. split; [done|].
      intros msg. rewrite Hs. congruence.
  - unfold food_checkin in H2. destruct (negb _); [discriminate|].
    injection H2 as <- <-. split; [done|]. intros msg. simpl. congruence.
Qed.

Lemma food_checkin_repeat_witness :
  exists ctx store' ctx' store'',
    food_checkin Sample.admin 7 100 ∅ (Some (Some "B-12", Some "dinner")) = inr (ctx, store') /\
    food_checkin Sample.admin 8 200 store' (Some (Some "B-12", Some "dinner")) = inr (ctx', store'') /\
    store'' = store' /\ forall msg, ck_status ctx' <> Some ("success", msg).
Proof.
  do 4 eexists. split; [reflexivity|]. split; [reflexivity|].
  eapply (food_checkin_repeat Sample.admin 7 8 100 200 ∅ (Some (Some "B-12", Some "dinner")));
    reflexivity.
Defined.

(** ** [my_project_entry] *)

Lemma strip_project_nonempty name : strip (name ++ " Project") <> "".
Proof.
  intros E. apply strip_empty in E. rewrite los_app in E.
  apply Forall_app in E as [_ E]. simpl in E.
  inversion E as [|? ? _ E1]; subst. inversion E1 as [|? ? HP _]; subst.
  vm_compute in HP. discriminate.
Qed.

(** A team account whose team has no project yet gets a new project
    titled with the team name followed by " Project", stripped; that
    title is never blank, so the fallback title of the view is never
    used. *)
Theorem created_title_nonempty u tid name new_id :
  _effective_role u = ROLE_TEAM ->
  my_project_entry u (Some (tid, name, None)) new_id =
    RedirectDetail new_id (Some (strip (name ++ " Project"))) /\
  strip (name ++ " Project") <> "".
Proof.
  intros Hr. pose proof (strip_project_nonempty name) as Hne. split; [|exact Hne].
  unfold my_project_entry. rewrite Hr. cbn [ROLE_TEAM String.eqb negb].
  destruct (String.eqb_spec (strip (name ++ " Project")) "") as [E|_]; [done|reflexivity].
Qed.

Lemma created_title_nonempty_witness :
  _effective_role (mkUser ROLE_TEAM false false) = ROLE_TEAM /\
  my_project_entry (mkUser ROLE_TEAM false false) (Some (3%Z, "  ", None)) 42 =
    RedirectDetail 42 (Some (strip ("  " ++ " Project"))) /\
  strip ("  " ++ " Project") <> "".
Proof.
  split; [reflexivity|].
  apply (created_title_nonempty (mkUser ROLE_TEAM false false) 3 "  " 42). reflexivity.
Defined.

(** ** Presentations *)

Section PresentationFacts.
Local Open Scope list_scope.

Lemma prefix_spec n h :
  String.prefix n h = true -> exists b, los h = los n ++ b.
Proof.
  revert h. induction n as [|c n IH]; intros h H.
  - exists (los h). reflexivity.
  - destruct h as [|d h]; [discriminate|]. simpl in H.
    destruct (Ascii.ascii_dec c d) as [<-|]; [|discriminate].
    destruct (IH h H) as [b Hb]. exists b. simpl. rewrite Hb. reflexivity.
Qed.

Lemma prefix_of_app n b :
  String.prefix n (sol (los n ++ b)) = true.
Proof.
  induction n as [|c n IH]; [simpl; by destruct (sol b)|]. simpl.
  destruct (Ascii.ascii_dec c c) as [_|]; [exact IH|congruence].
Qed.

Lemma str_contains_spec n h :
  str_contains n h = true <-> exists a b, los h = a ++ los n ++ b.
Proof.
  split.
  - induction h as [|c h IH]; intros H.
    { destruct n as [|d n]; [by exists [], []|discriminate]. }
    cbn [str_contains] in H. apply orb_prop in H as [H|H].
    + destruct (prefix_spec _ _ H) as [b Hb]. exists [], b. exact Hb.
    + destruct (IH H) as (a & b & Hab). exists (c :: a), b. simpl. rewrite Hab. reflexivity.
  - intros (a & b & Hab). revert h Hab. induction a as [|x a IH]; intros h Hab.
    + destruct h as [|c h].
      * destruct n as [|d n]; [reflexivity|discriminate].
      * cbn [str_contains]. apply orb_true_intro. left.
        rewrite <- (String.string_of_list_ascii_of_string (String c h)), Hab.
        apply prefix_of_app.
    + destruct h as [|c h]; [discriminate|]. simpl in Hab. injection Hab as -> Hab.
      cbn [str_contains]. apply orb_true_intro. right. exact (IH h Hab).
Qed.

(** An occurrence of a needle with no space, inside [p ++ m ++ q] where
    [p] and [q] are spaces only, lies inside [m]. *)
Lemma infix_trim N p m q a b :
  N <> [] -> Forall (fun c => is_space c = false) N ->
  Forall (fun c => is_space c = true) p -> Forall (fun c => is_space c = true) q ->
  p ++ m ++ q = a ++ N ++ b -> exists a' b', m = a' ++ N ++ b'.
Proof.
  intros Hn HN Hp Hq E.
  assert (exists l, m ++ q = l ++ N ++ b) as [l Hl].
  { destruct (app_eq_app _ _ _ _ E) as [l [[H1 H2]|[H1 H2]]].
    - destruct l as [|x l].
      + exists []. rewrite app_nil_r in H1. subst p. simpl. symmetry. exact H2.
      + exfalso. destruct N as [|z N]; [done|]. simpl in H2. injection H2 as -> _.
        rewrite H1 in Hp. apply Forall_app in Hp as [_ Hp].
        inversion Hp; inversion HN; congruence.
    - exists l. exact H2. }
  rewrite app_assoc in Hl.
  destruct (app_eq_app _ _ _ _ Hl) as [r [[H1 H2]|[H1 H2]]].
  - exists l, r. rewrite H1, <- app_assoc. reflexivity.
  - destruct r as [|y r] using rev_ind.
    + rewrite app_nil_r in H1. exists l, []. rewrite app_nil_r, <- H1. reflexivity.
    + exfalso. clear IHr. destruct N as [|z N] using rev_ind; [done|]. clear IHN.
      rewrite !app_assoc in H1. apply app_inj_tail in H1 as [_ Hyz].
      rewrite H2 in Hq. apply Forall_app in Hq as [Hq _]. apply Forall_app in Hq as [_ Hq].
      apply Forall_app in HN as [_ HN]. inversion Hq; inversion HN; congruence.
Qed.

(** Stripping keeps an occurrence of a non-empty needle without spaces. *)
Lemma contains_strip n s :
  n <> "" -> Forall (fun c => is_space c = false) (los n) ->
  str_contains n s = true -> str_contains n (strip s) = true.
Proof.
  intros Hn Hsp Hc. apply str_contains_spec in Hc as (a & b & Hab).
  destruct (strip_spec s) as (p & q & Hs & Hp & Hq & _).
  apply str_contains_spec.
  assert (los n <> []) as Hn'.
  { intros E. apply Hn. rewrite <- (String.string_of_list_ascii_of_string n), E. reflexivity. }
  rewrite Hab in Hs.
  exact (infix_trim _ _ _ _ _ _ Hn' Hsp Hp Hq (eq_sym Hs)).
Qed.

End PresentationFacts.

Lemma contains_of_strip n s :
  str_contains n (strip s) = true -> str_contains n s = true.
Proof.
  intros Hc. apply str_contains_spec in Hc as (a & b & Hab).
  destruct (strip_spec s) as (p & q & Hs & _).
  apply str_contains_spec. exists (p ++ a)%list, (b ++ q)%list.
  rewrite Hs, Hab. rewrite <- !app_assoc. reflexivity.
Qed.

Lemma slides_no_space : Forall (fun c => is_space c = false) (los SLIDES).
Proof. vm_compute. repeat constructor. Qed.

(** A presentation link passes [PresentationSubmission.clean] exactly
    when the detail page can build an embed URL from it: validation and
    display accept the same links, spaces around the link apart. *)
Theorem clean_iff_embeds link :
  presentation_clean link = true <-> _presentation_embed_url (Some link) <> None.
Proof.
  unfold presentation_clean, _presentation_embed_url. split.
  - intros H. apply andb_prop in H as [Hne Hc].
    destruct (String.eqb link "") eqn:E; [discriminate|].
    rewrite (contains_strip SLIDES link ltac:(discriminate) slides_no_space Hc).
    destruct (str_contains "/embed" _); [discriminate|].
    destruct (str_contains "/edit" _); [discriminate|].
    destruct (str_contains "edit?" _); discriminate.
  - destruct (String.eqb link "") eqn:E; [done|]. intros H.
    destruct (str_contains SLIDES (strip link)) eqn:Hc; [|done].
    rewrite (contains_of_strip _ _ Hc). reflexivity.
Qed.

(** ** [presentation_viewer] *)

(** The presentation viewer answers 404 for an unknown project, shows the
    presentation to judges, admins and HackTJ staff (effective roles), and
    denies every other account, team accounts included whatever their
    team: the team check reads a [project_id] attribute [Team] does not
    have. *)
Theorem presentation_viewer_access u team projects pid :
  presentation_viewer u team projects pid =
    match projects !! pid with
    | None => ViewerNotFound
    | Some pres =>
        if existsb (String.eqb (_effective_role u)) [ROLE_JUDGE; ROLE_ADMIN; ROLE_HACKTJ]
        then ViewerShow (_presentation_embed_url pres)
        else ViewerDenied
    end.
Proof.
  unfold presentation_viewer. destruct (projects !! pid) as [pres|]; [|reflexivity].
  destruct (String.eqb_spec (_effective_role u) ROLE_TEAM) as [->|_].
  - by destruct team.
  - reflexivity.
Qed.

(** A team account that owns a project passes the access check of
    [project_detail] for it, yet [presentation_viewer] denies it the
    presentation of that same project. *)
Theorem team_owner_viewer_denied u uid tid projects pid pres :
  _effective_role u = ROLE_TEAM -> projects !! pid = Some pres ->
  is_team_view (_effective_role u) uid (Some uid) (Some tid) tid = true /\
  presentation_viewer u (Some tid) projects pid = ViewerDenied.
Proof.
  intros Hr Hp. rewrite Hr. split.
  - unfold is_team_view. rewrite Z.eqb_refl. reflexivity.
  - unfold presentation_viewer. rewrite Hp, Hr. reflexivity.
Qed.

Lemma team_owner_viewer_denied_witness :
  _effective_role (mkUser ROLE_TEAM false false) = ROLE_TEAM /\
  (<[7%Z := Some "https://docs.google.com/presentation/d/x/edit"]> ∅ : gmap Z (option string)) !! 7%Z
    = Some (Some "https://docs.google.com/presentation/d/x/edit") /\
  is_team_view (_effective_role (mkUser ROLE_TEAM false false)) 5 (Some 5%Z) (Some 3%Z) 3 = true /\
  presentation_viewer (mkUser ROLE_TEAM false false) (Some 3%Z)
    (<[7%Z := Some "https://docs.google.com/presentation/d/x/edit"]> ∅) 7 = ViewerDenied.
Proof.
  split; [reflexivity|]. split; [reflexivity|].
  apply (team_owner_viewer_denied (mkUser ROLE_TEAM false false) 5 3
           (<[7%Z := Some "https://docs.google.com/presentation/d/x/edit"]> ∅) 7
           (Some "https://docs.google.com/presentation/d/x/edit")); reflexivity.
Defined.

(** ** [dashboard] *)

(** The dashboard shows the scoreboard and the integrity reports exactly
    to the effective roles that see scores on the project pages (admin
    and judge); those roles also get the master project list and the
    judging section, and the team-only sections are hidden from them. *)
Theorem dashboard_scoreboard_roles u :
  let f := dashboard_flags u in
  show_scoreboard f = can_see_scores (_effective_role u) /\
  show_integrity f = can_see_scores (_effective_role u) /\
  (show_scoreboard f = true ->
   show_master_projects f = true /\ show_judging f = true /\
   show_forms f = false /\ show_project_sections f = false /\ show_category_section f = false).
Proof.
  cbn zeta. unfold dashboard_flags, can_see_scores. cbn [show_scoreboard show_integrity
    show_master_projects show_judging show_forms show_project_sections show_category_section].
  split; [|split]; [reflexivity|reflexivity|].
  destruct (String.eqb_spec (_effective_role u) ROLE_ADMIN) as [->|Ha];
    [intros _; vm_compute; tauto|].
  destruct (String.eqb_spec (_effective_role u) ROLE_JUDGE) as [->|Hj];
    [intros _; vm_compute; tauto|].
  cbn [existsb]. apply String.eqb_neq in Ha, Hj. rewrite Ha, Hj. discriminate.
Qed.

(** A superuser or staff account always gets the admin panel and the
    scoreboard on the dashboard, whatever its stored role. *)
Theorem dashboard_staff_admin u :
  is_superuser u = true \/ is_staff u = true ->
  show_admin_panel (dashboard_flags u) = true /\ show_scoreboard (dashboard_flags u) = true.
Proof.
  intros H. assert (_effective_role u = ROLE_ADMIN) as Hr.
  { unfold _effective_role.
    destruct (String.eqb_spec (role u) ROLE_ADMIN) as [E|_].
    - rewrite andb_false_r. exact E.
    - destruct H as [-> | ->]; [reflexivity|]. by rewrite orb_true_r. }
  unfold dashboard_flags. cbn [show_admin_panel show_scoreboard]. rewrite Hr. split; reflexivity.
Qed.

Lemma dashboard_staff_admin_witness :
  (is_superuser (mkUser ROLE_VOLUNTEER false true) = true \/
   is_staff (mkUser ROLE_VOLUNTEER false true) = true) /\
  show_admin_panel (dashboard_flags (mkUser ROLE_VOLUNTEER false true)) = true /\
  show_scoreboard (dashboard_flags (mkUser ROLE_VOLUNTEER false true)) = true.
Proof.
  split; [right; reflexivity|].
  apply (dashboard_staff_admin (mkUser ROLE_VOLUNTEER false true)). right. reflexivity.
Defined.
